(** * OAuth 2.1 authorization server of devops-mcp

    A shallow embedding of [devops_mcp/oauth.py] (the in-memory code and
    token stores, code redemption with PKCE, refresh, bearer validation)
    and of the two front-end functions of [devops_mcp/__main__.py] that
    the properties below talk about ([check_auth], [oauth_authorize]).

    Modelling conventions.
    - A Python [str] is a [string]; the string is read as the UTF-8
      encoding of the text, so [str.encode()] is the list of its bytes
      (a [str] that has no UTF-8 encoding is outside the model).
      An [Optional[str]] argument is an [option string] ([pystr]); the
      keys of the stores (codes and tokens) are [str], as annotated.
      The body of a request to the token endpoint is a dict of strings
      (form fields, or a JSON object with string members only).
    - The three dictionaries keyed by generated tokens are [gmap string _].
    - [datetime] values are integers (microseconds), compared with [<].
    - [datetime.utcnow()] and [secrets.token_urlsafe(32)] are the only
      inputs from the environment.  They are oracles [utcnow_at : nat -> Z]
      and [token_urlsafe_at : nat -> string]; the world counts how many
      readings each has delivered, and every call consumes the next one,
      in the order the source evaluates them. *)

From Stdlib Require Import ZArith Ascii String List.
From stdpp Require Import gmap strings list fin_maps.

Local Open Scope Z_scope.

(** ** hashlib.sha256 (FIPS 180-4), on bytes as integers in [0, 256) *)

Module SHA256.

Definition mask32 : Z := 0xffffffff.
Definition add32 (x y : Z) : Z := (x + y) mod 2 ^ 32.
Definition rotr (n x : Z) : Z :=
  Z.lor (Z.shiftr x n) (Z.land (Z.shiftl x (32 - n)) mask32).
Definition not32 (x : Z) : Z := Z.lxor x mask32.

Definition Ch (x y z : Z) : Z := Z.lxor (Z.land x y) (Z.land (not32 x) z).
Definition Maj (x y z : Z) : Z :=
  Z.lxor (Z.lxor (Z.land x y) (Z.land x z)) (Z.land y z).
Definition bsig0 (x : Z) : Z := Z.lxor (Z.lxor (rotr 2 x) (rotr 13 x)) (rotr 22 x).
Definition bsig1 (x : Z) : Z := Z.lxor (Z.lxor (rotr 6 x) (rotr 11 x)) (rotr 25 x).
Definition ssig0 (x : Z) : Z := Z.lxor (Z.lxor (rotr 7 x) (rotr 18 x)) (Z.shiftr x 3).
Definition ssig1 (x : Z) : Z := Z.lxor (Z.lxor (rotr 17 x) (rotr 19 x)) (Z.shiftr x 10).

(** The round constants (first 32 bits of the fractional parts of the cube
    roots of the first 64 primes) and the initial hash value (the same of
    the square roots of the first 8 primes), in decimal. *)
Definition K : list Z :=
  [ 1116352408; 1899447441; 3049323471; 3921009573; 961987163; 1508970993;
    2453635748; 2870763221; 3624381080; 310598401; 607225278; 1426881987;
    1925078388; 2162078206; 2614888103; 3248222580; 3835390401; 4022224774;
    264347078; 604807628; 770255983; 1249150122; 1555081692; 1996064986;
    2554220882; 2821834349; 2952996808; 3210313671; 3336571891; 3584528711;
    113926993; 338241895; 666307205; 773529912; 1294757372; 1396182291;
    1695183700; 1986661051; 2177026350; 2456956037; 2730485921; 2820302411;
    3259730800; 3345764771; 3516065817; 3600352804; 4094571909; 275423344;
    430227734; 506948616; 659060556; 883997877; 958139571; 1322822218;
    1537002063; 1747873779; 1955562222; 2024104815; 2227730452; 2361852424;
    2428436474; 2756734187; 3204031479; 3329325298 ].

Definition H0 : list Z :=
  [ 1779033703; 3144134277; 1013904242; 2773480762;
    1359893119; 2600822924; 528734635; 1541459225 ].

(** Big-endian packing of bytes into a word and back. *)
Definition be_word (bs : list Z) : Z :=
  fold_left (fun acc b => Z.lor (Z.shiftl acc 8) b) bs 0.

Fixpoint be_bytes (n : nat) (x : Z) : list Z :=
  match n with
  | O => []
  | S n' => Z.land (Z.shiftr x (8 * Z.of_nat n')) 0xff :: be_bytes n' x
  end.

(** Cut a list into [n] consecutive pieces of [k] elements. *)
Fixpoint chunks {A} (k n : nat) (l : list A) : list (list A) :=
  match n with
  | O => []
  | S n' => take k l :: chunks k n' (drop k l)
  end.

(** Padding: a one bit, zeros up to 56 mod 64, then the bit length on 8 bytes. *)
Definition pad (msg : list Z) : list Z :=
  let len := Z.of_nat (length msg) in
  msg ++ [0x80] ++ replicate (Z.to_nat ((55 - len) mod 64)) 0
      ++ be_bytes 8 (8 * len).

(** Message schedule, kept as a sliding window of the last 16 words. *)
Definition next_w (win : list Z) : Z :=
  add32 (add32 (add32 (ssig1 (nth 14 win 0)) (nth 9 win 0))
               (ssig0 (nth 1 win 0)))
        (nth 0 win 0).

Fixpoint extend (n : nat) (win : list Z) : list Z :=
  match n with
  | O => []
  | S n' => let x := next_w win in x :: extend n' (drop 1 win ++ [x])
  end.

Definition schedule (block : list Z) : list Z :=
  let w16 := map be_word (chunks 4 16 block) in
  w16 ++ extend 48 w16.

Record regs := Regs { ra : Z; rb : Z; rc : Z; rd : Z; re : Z; rf : Z; rg : Z; rh : Z }.

Definition round (s : regs) (kw : Z * Z) : regs :=
  let t1 := add32 (add32 (add32 (add32 (rh s) (bsig1 (re s)))
                                (Ch (re s) (rf s) (rg s))) kw.1) kw.2 in
  let t2 := add32 (bsig0 (ra s)) (Maj (ra s) (rb s) (rc s)) in
  Regs (add32 t1 t2) (ra s) (rb s) (rc s) (add32 (rd s) t1) (re s) (rf s) (rg s).

Definition regs_of (h : list Z) : regs :=
  Regs (nth 0 h 0) (nth 1 h 0) (nth 2 h 0) (nth 3 h 0)
       (nth 4 h 0) (nth 5 h 0) (nth 6 h 0) (nth 7 h 0).

Definition list_of (s : regs) : list Z :=
  [ra s; rb s; rc s; rd s; re s; rf s; rg s; rh s].

Definition compress (h : list Z) (block : list Z) : list Z :=
  let s := fold_left round (combine K (schedule block)) (regs_of h) in
  zip_with add32 h (list_of s).

Definition digest (msg : list Z) : list Z :=
  let p := pad msg in
  let h := fold_left compress (chunks 64 (length p / 64) p) H0 in
  concat (map (be_bytes 4) h).

End SHA256.

(** ** str.encode(), base64.urlsafe_b64encode, bytes.rstrip(b"="), bytes.decode() *)

Definition encode (s : string) : list Z :=
  map (fun c => Z.of_N (N_of_ascii c)) (list_ascii_of_string s).

Definition b64_alphabet : list ascii :=
  list_ascii_of_string
    "ABCDEFGHIJKLMNOPQRSTUVWXYZabcdefghijklmnopqrstuvwxyz0123456789-_".

Definition b64_char (i : Z) : ascii := nth (Z.to_nat i) b64_alphabet "="%char.

Fixpoint urlsafe_b64encode (bs : list Z) : string :=
  match bs with
  | [] => EmptyString
  | [a] =>
      String (b64_char (Z.shiftr a 2))
        (String (b64_char (Z.shiftl (Z.land a 3) 4)) "==")
  | [a; b] =>
      String (b64_char (Z.shiftr a 2))
        (String (b64_char (Z.lor (Z.shiftl (Z.land a 3) 4) (Z.shiftr b 4)))
           (String (b64_char (Z.shiftl (Z.land b 15) 2)) "="))
  | a :: b :: c :: rest =>
      String (b64_char (Z.shiftr a 2))
        (String (b64_char (Z.lor (Z.shiftl (Z.land a 3) 4) (Z.shiftr b 4)))
           (String (b64_char (Z.lor (Z.shiftl (Z.land b 15) 2) (Z.shiftr c 6)))
              (String (b64_char (Z.land c 63)) (urlsafe_b64encode rest))))
  end.

(** [s.rstrip(b"=")]: drop every trailing ['=']. *)
Fixpoint rstrip_eq (s : string) : string :=
  match s with
  | EmptyString => EmptyString
  | String c r =>
      match rstrip_eq r with
      | EmptyString => if Ascii.eqb c "=" then EmptyString else String c EmptyString
      | r' => String c r'
      end
  end.

(** The S256 transform of a verifier, as computed in [exchange_code_for_tokens]:
    [base64.urlsafe_b64encode(hashlib.sha256(v.encode()).digest()).rstrip(b"=").decode()] *)
Definition s256 (code_verifier : string) : string :=
  rstrip_eq (urlsafe_b64encode (SHA256.digest (encode code_verifier))).

(** ** Python values *)

(** An [Optional[str]]: [None] or a string. *)
Definition pystr := option string.

(** Truthiness of an [Optional[str]]: [None] and [""] are falsy. *)
Definition truthy (v : pystr) : bool :=
  match v with
  | Some s => negb (String.eqb s "")
  | None => false
  end.

(** Python [==] on two [Optional[str]] values. *)
Definition py_eq (a b : pystr) : bool := bool_decide (a = b).

(** [s.startswith(p)] and the slice [s[n:]]. *)
Definition startswith (p s : string) : bool := String.prefix p s.

Fixpoint slice_from (n : nat) (s : string) : string :=
  match n, s with
  | O, _ => s
  | S n', String _ r => slice_from n' r
  | S _, EmptyString => EmptyString
  end.

(** [timedelta(minutes=m)] and [timedelta(seconds=s)], in microseconds. *)
Definition timedelta_minutes (m : Z) : Z := m * 60000000.
Definition timedelta_seconds (s : Z) : Z := s * 1000000.

(** ** The stores *)

(** Value of [_authorization_codes[code]]. *)
Record AuthorizationCode := {
  ac_client_id : pystr;
  ac_redirect_uri : pystr;
  ac_scope : pystr;
  ac_code_challenge : pystr;
  ac_code_challenge_method : pystr;
  ac_created_at : Z;
  ac_expires_at : Z
}.

(** Value of [_access_tokens[token]]. *)
Record AccessToken := {
  at_client_id : pystr;
  at_scope : pystr;
  at_created_at : Z;
  at_expires_at : Z
}.

(** Value of [_refresh_tokens[token]]. *)
Record RefreshToken := {
  rt_client_id : pystr;
  rt_scope : pystr;
  rt_created_at : Z
}.

(** The dict returned by a successful exchange or refresh. *)
Record TokenResponse := {
  resp_access_token : string;
  resp_token_type : string;
  resp_expires_in : Z;
  resp_refresh_token : string;
  resp_scope : pystr
}.

(** The module-level dictionaries, and how many readings the clock and the
    random source have delivered so far. *)
Record World := {
  _authorization_codes : gmap string AuthorizationCode;
  _access_tokens : gmap string AccessToken;
  _refresh_tokens : gmap string RefreshToken;
  clock_reads : nat;
  rng_reads : nat
}.

Definition with_codes (f : gmap string AuthorizationCode → gmap string AuthorizationCode)
    (w : World) : World :=
  {| _authorization_codes := f (_authorization_codes w);
     _access_tokens := _access_tokens w;
     _refresh_tokens := _refresh_tokens w;
     clock_reads := clock_reads w;
     rng_reads := rng_reads w |}.

Definition with_access (f : gmap string AccessToken → gmap string AccessToken)
    (w : World) : World :=
  {| _authorization_codes := _authorization_codes w;
     _access_tokens := f (_access_tokens w);
     _refresh_tokens := _refresh_tokens w;
     clock_reads := clock_reads w;
     rng_reads := rng_reads w |}.

Definition with_refresh (f : gmap string RefreshToken → gmap string RefreshToken)
    (w : World) : World :=
  {| _authorization_codes := _authorization_codes w;
     _access_tokens := _access_tokens w;
     _refresh_tokens := f (_refresh_tokens w);
     clock_reads := clock_reads w;
     rng_reads := rng_reads w |}.

(** One more reading taken from the clock, one more draw from the random
    source. *)
Definition tick (w : World) : World :=
  {| _authorization_codes := _authorization_codes w;
     _access_tokens := _access_tokens w;
     _refresh_tokens := _refresh_tokens w;
     clock_reads := S (clock_reads w);
     rng_reads := rng_reads w |}.

Definition draw (w : World) : World :=
  {| _authorization_codes := _authorization_codes w;
     _access_tokens := _access_tokens w;
     _refresh_tokens := _refresh_tokens w;
     clock_reads := clock_reads w;
     rng_reads := S (rng_reads w) |}.

(** ** The state monad of the module *)

Definition M (A : Type) : Type := World → A * World.

Global Instance M_ret : MRet M := λ A (a : A) (w : World), (a, w).
Global Instance M_fmap : FMap M :=
  λ A B (f : A → B) (m : M A) (w : World), let '(a, w1) := m w in (f a, w1).
Global Instance M_bind : MBind M :=
  λ A B (k : A → M B) (m : M A) (w : World), let '(a, w1) := m w in k a w1.

(** Calls into the module, and what they return.  A run of the server is a
    list of calls performed one after the other on the shared stores. *)
Inductive Call :=
  | create_call (client_id redirect_uri scope code_challenge code_challenge_method : pystr)
  | exchange_call (code : string) (client_id redirect_uri code_verifier : pystr)
  | refresh_call (refresh_token : string) (client_id : pystr)
  | validate_call (token : string).

Inductive Reply :=
  | code_reply (code : string)
  | tokens_reply (tokens : option TokenResponse)
  | record_reply (record : option AccessToken).

(** A reply that hands out [token] as a fresh access token. *)
Definition mints (token : string) (r : Reply) : Prop :=
  ∃ t, r = tokens_reply (Some t) ∧ resp_access_token t = token.

(** The HTTP responses built by the front end. *)
Inductive Response :=
  | JSONResponse (error : string) (status_code : Z)
  | RedirectResponse (url : string) (status_code : Z).

(** A request, as far as [check_auth] reads it: the value of its
    [Authorization] header, if it has one. *)
Record Request := { header_Authorization : option string }.

(** The PKCE step as the specification words it: nothing to check when no
    (non-empty) challenge was recorded; otherwise a (non-empty) verifier is
    required, and it, or its S256 transform when the recorded method is
    ["S256"], must equal the recorded challenge. *)
Definition pkce_verified (auth_code : AuthorizationCode) (code_verifier : pystr) : Prop :=
  truthy (ac_code_challenge auth_code) = false
  ∨ ∃ v, code_verifier = Some v ∧ v ≠ ""
         ∧ ac_code_challenge auth_code
           = Some (if decide (ac_code_challenge_method auth_code = Some "S256")
                   then s256 v else v).

(** The block of [exchange_code_for_tokens] under [# Validate PKCE if used]:
    [true] when one of its three [return None] is reached.  It reads nothing
    but the stored code and the verifier. *)
Definition pkce_rejects (auth_code : AuthorizationCode) (code_verifier : pystr) : bool :=
  if truthy (ac_code_challenge auth_code) then
    if negb (truthy code_verifier) then true else
    let expected :=
      if py_eq (ac_code_challenge_method auth_code) (Some "S256")
      then s256 <$> code_verifier
      else code_verifier in
    if negb (py_eq expected (ac_code_challenge auth_code)) then true else
    false
  else false.

Section Oracles.

(** The [n]-th reading of [datetime.utcnow()] and the [n]-th draw of
    [secrets.token_urlsafe(32)]. *)
Variable utcnow_at : nat → Z.
Variable token_urlsafe_at : nat → string.

Definition utcnow : M Z := fun w => (utcnow_at (clock_reads w), tick w).

Definition token_urlsafe : M string :=
  fun w => (token_urlsafe_at (rng_reads w), draw w).

Definition get_code (code : string) : M (option AuthorizationCode) :=
  fun w => (_authorization_codes w !! code, w).
Definition get_access (token : string) : M (option AccessToken) :=
  fun w => (_access_tokens w !! token, w).
Definition get_refresh (token : string) : M (option RefreshToken) :=
  fun w => (_refresh_tokens w !! token, w).

Definition set_code (code : string) (v : AuthorizationCode) : M unit :=
  fun w => (tt, with_codes (insert code v) w).
Definition set_access (token : string) (v : AccessToken) : M unit :=
  fun w => (tt, with_access (insert token v) w).
Definition set_refresh (token : string) (v : RefreshToken) : M unit :=
  fun w => (tt, with_refresh (insert token v) w).

(** [del d[k]] on a key that is present (every use below follows a
    successful lookup of the same key). *)
Definition del_code (code : string) : M unit :=
  fun w => (tt, with_codes (delete code) w).
Definition del_access (token : string) : M unit :=
  fun w => (tt, with_access (delete token) w).

(** [create_authorization_code] *)
Definition create_authorization_code
    (client_id redirect_uri scope code_challenge code_challenge_method : pystr)
    : M string :=
  code ← token_urlsafe;
  created_at ← utcnow;
  base ← utcnow;
  set_code code
        {| ac_client_id := client_id;
           ac_redirect_uri := redirect_uri;
           ac_scope := scope;
           ac_code_challenge := code_challenge;
           ac_code_challenge_method := code_challenge_method;
           ac_created_at := created_at;
           ac_expires_at := base + timedelta_minutes 10 |} ;;
  mret code.

(** [exchange_code_for_tokens] *)
Definition exchange_code_for_tokens
    (code : string) (client_id redirect_uri code_verifier : pystr)
    : M (option TokenResponse) :=
  auth_code ← get_code code;
  match auth_code with
  | None => mret None
  | Some auth_code =>
    if negb (py_eq (ac_client_id auth_code) client_id) then mret None else
    if negb (py_eq (ac_redirect_uri auth_code) redirect_uri) then mret None else
    now ← utcnow;
    if ac_expires_at auth_code <? now then
      del_code code ;; mret None
    else
    if pkce_rejects auth_code code_verifier then mret None else
    del_code code ;;
    access_token ← token_urlsafe;
    refresh_token ← token_urlsafe;
    let expires_in := 3600 in
    created_at ← utcnow;
    base ← utcnow;
    set_access access_token
          {| at_client_id := client_id;
             at_scope := ac_scope auth_code;
             at_created_at := created_at;
             at_expires_at := base + timedelta_seconds expires_in |} ;;
    rt_created ← utcnow;
    set_refresh refresh_token
          {| rt_client_id := client_id;
             rt_scope := ac_scope auth_code;
             rt_created_at := rt_created |} ;;
    mret (Some {| resp_access_token := access_token;
                 resp_token_type := "Bearer";
                 resp_expires_in := expires_in;
                 resp_refresh_token := refresh_token;
                 resp_scope := ac_scope auth_code |})
  end.

(** [refresh_access_token] *)
Definition refresh_access_token (refresh_token : string) (client_id : pystr)
    : M (option TokenResponse) :=
  token_data ← get_refresh refresh_token;
  match token_data with
  | None => mret None
  | Some token_data =>
    if negb (py_eq (rt_client_id token_data) client_id) then mret None else
    access_token ← token_urlsafe;
    let expires_in := 3600 in
    created_at ← utcnow;
    base ← utcnow;
    set_access access_token
          {| at_client_id := client_id;
             at_scope := rt_scope token_data;
             at_created_at := created_at;
             at_expires_at := base + timedelta_seconds expires_in |} ;;
    mret (Some {| resp_access_token := access_token;
                 resp_token_type := "Bearer";
                 resp_expires_in := expires_in;
                 resp_refresh_token := refresh_token;
                 resp_scope := rt_scope token_data |})
  end.

(** [validate_access_token] *)
Definition validate_access_token (token : string) : M (option AccessToken) :=
  token_data ← get_access token;
  match token_data with
  | None => mret None
  | Some token_data =>
    now ← utcnow;
    if at_expires_at token_data <? now then
      del_access token ;; mret None
    else mret (Some token_data)
  end.

(** [check_auth], a closure over the static [auth_token] of [run_sse].
    A record returned by [validate_access_token] is a non-empty dict, hence
    truthy. *)
Definition check_auth (auth_token : pystr) (request : Request) : M bool :=
  let auth_header := default "" (header_Authorization request) in
  if startswith "Bearer " auth_header then
    let token := slice_from 7 auth_header in
    valid ← validate_access_token token;
    if bool_decide (is_Some valid) then mret true else
    if truthy auth_token && py_eq (Some token) auth_token then mret true else
    mret false
  else
    if negb (truthy auth_token) then mret true else mret false.

(** [f"{v}"] of an [Optional[str]]. *)
Definition fmt (v : pystr) : string := default "None" v.

(** [oauth_authorize], on the dictionary of the request's query parameters. *)
Definition oauth_authorize (query_params : gmap string string) : M Response :=
  let client_id := query_params !! "client_id" in
  let redirect_uri := query_params !! "redirect_uri" in
  let response_type := query_params !! "response_type" in
  let scope := Some (default "mcp:tools mcp:resources" (query_params !! "scope")) in
  let state := default "" (query_params !! "state") in
  let code_challenge := query_params !! "code_challenge" in
  let code_challenge_method :=
    Some (default "plain" (query_params !! "code_challenge_method")) in
  if negb (py_eq response_type (Some "code")) then
    mret (JSONResponse "unsupported_response_type" 400)
  else
    code ← create_authorization_code client_id redirect_uri scope
                 code_challenge code_challenge_method;
    let redirect_url := fmt redirect_uri +:+ "?code=" +:+ code in
    let redirect_url :=
      if negb (String.eqb state "") then redirect_url +:+ "&state=" +:+ state
      else redirect_url in
    mret (RedirectResponse redirect_url 302).

Definition perform (c : Call) : M Reply :=
  match c with
  | create_call client_id redirect_uri scope code_challenge code_challenge_method =>
      code_reply <$> create_authorization_code client_id redirect_uri scope
                       code_challenge code_challenge_method
  | exchange_call code client_id redirect_uri code_verifier =>
      tokens_reply <$> exchange_code_for_tokens code client_id redirect_uri code_verifier
  | refresh_call refresh_token client_id =>
      tokens_reply <$> refresh_access_token refresh_token client_id
  | validate_call token =>
      record_reply <$> validate_access_token token
  end.

Fixpoint run (calls : list Call) : M (list Reply) :=
  match calls with
  | [] => mret []
  | c :: cs => r ← perform c; rs ← run cs; mret (r :: rs)
  end.

(** The five ways through [exchange_code_for_tokens], as a relation between
    the world before, the value returned and the world after. *)
Inductive exchange_path (code : string) (client_id redirect_uri code_verifier : pystr)
    (w : World) : option TokenResponse → World → Prop :=
  | path_unknown :
      _authorization_codes w !! code = None →
      exchange_path code client_id redirect_uri code_verifier w None w
  | path_mismatch auth_code :
      _authorization_codes w !! code = Some auth_code →
      ac_client_id auth_code ≠ client_id ∨ ac_redirect_uri auth_code ≠ redirect_uri →
      exchange_path code client_id redirect_uri code_verifier w None w
  | path_expired auth_code w' :
      _authorization_codes w !! code = Some auth_code →
      ac_client_id auth_code = client_id →
      ac_redirect_uri auth_code = redirect_uri →
      ac_expires_at auth_code < utcnow_at (clock_reads w) →
      _authorization_codes w' = delete code (_authorization_codes w) →
      _access_tokens w' = _access_tokens w →
      _refresh_tokens w' = _refresh_tokens w →
      exchange_path code client_id redirect_uri code_verifier w None w'
  | path_pkce auth_code w' :
      _authorization_codes w !! code = Some auth_code →
      ac_client_id auth_code = client_id →
      ac_redirect_uri auth_code = redirect_uri →
      ¬ (ac_expires_at auth_code < utcnow_at (clock_reads w)) →
      ¬ pkce_verified auth_code code_verifier →
      _authorization_codes w' = _authorization_codes w →
      _access_tokens w' = _access_tokens w →
      _refresh_tokens w' = _refresh_tokens w →
      exchange_path code client_id redirect_uri code_verifier w None w'
  | path_tokens auth_code t w' :
      _authorization_codes w !! code = Some auth_code →
      ac_client_id auth_code = client_id →
      ac_redirect_uri auth_code = redirect_uri →
      ¬ (ac_expires_at auth_code < utcnow_at (clock_reads w)) →
      pkce_verified auth_code code_verifier →
      t = {| resp_access_token := token_urlsafe_at (rng_reads w);
             resp_token_type := "Bearer";
             resp_expires_in := 3600;
             resp_refresh_token := token_urlsafe_at (S (rng_reads w));
             resp_scope := ac_scope auth_code |} →
      _authorization_codes w' = delete code (_authorization_codes w) →
      _access_tokens w'
      = <[resp_access_token t :=
            {| at_client_id := client_id; at_scope := ac_scope auth_code;
               at_created_at := utcnow_at (S (clock_reads w));
               at_expires_at := utcnow_at (S (S (clock_reads w)))
                                + timedelta_seconds 3600 |}]> (_access_tokens w) →
      _refresh_tokens w'
      = <[resp_refresh_token t :=
            {| rt_client_id := client_id; rt_scope := ac_scope auth_code;
               rt_created_at := utcnow_at (S (S (S (clock_reads w)))) |}]>
          (_refresh_tokens w) →
      exchange_path code client_id redirect_uri code_verifier w (Some t) w'.

End Oracles.

(** ** The token endpoint, the registration endpoint and the client registry *)

(** [a, b = s.split(":", 1)]: the text before the first colon and the text
    after it; [None] when [s] has no colon (the unpacking raises). *)
Fixpoint split_once (s : string) : option (string * string) :=
  match s with
  | EmptyString => None
  | String c r =>
      if Ascii.eqb c ":" then Some (EmptyString, r)
      else match split_once r with
           | Some (a, b) => Some (String c a, b)
           | None => None
           end
  end.

Fixpoint has_colon (s : string) : bool :=
  match s with
  | EmptyString => false
  | String c r => Ascii.eqb c ":" || has_colon r
  end.

(** A value read by [request.json()].  Numbers are kept as integers; the
    registry stores and returns these values and never looks inside. *)
Inductive json :=
  | JNull
  | JBool (b : bool)
  | JNum (n : Z)
  | JStr (s : string)
  | JArr (items : list json)
  | JObj (fields : list (string * json)).

(** The Python dict of a JSON object (a repeated name keeps its last value);
    [None] for a value that is not an object. *)
Definition as_dict (body : json) : option (gmap string json) :=
  match body with
  | JObj fields => Some (list_to_map (reverse fields))
  | _ => None
  end.

(** Value of [_registered_clients[client_id]], the dict built by
    [register_client]. *)
Record ClientData := {
  cd_client_id : string;
  cd_client_secret : string;
  cd_client_id_issued_at : Z;
  cd_client_secret_expires_at : Z;
  cd_redirect_uris : json;
  cd_token_endpoint_auth_method : json;
  cd_grant_types : json;
  cd_response_types : json;
  cd_client_name : json;
  cd_scope : json
}.

(** The whole module state: the three token stores with their counters, the
    client registry, and how many [uuid.uuid4()] were drawn. *)
Record Server := {
  oauth : World;
  _registered_clients : gmap string ClientData;
  uuid_reads : nat
}.

Definition MS (A : Type) : Type := Server → A * Server.

Global Instance MS_ret : MRet MS := λ A (a : A) (s : Server), (a, s).
Global Instance MS_bind : MBind MS :=
  λ A B (k : A → MS B) (m : MS A) (s : Server), let '(a, s1) := m s in k a s1.

(** An operation on the token stores, run inside the whole state. *)
Definition lift {A} (m : M A) : MS A :=
  fun s => let '(a, w) := m (oauth s) in
           (a, {| oauth := w;
                  _registered_clients := _registered_clients s;
                  uuid_reads := uuid_reads s |}).

(** What [oauth_token] answers: [JSONResponse(tokens)] with status 200, or
    [JSONResponse({"error": ...}, status_code=...)]. *)
Inductive TokenEndpointResponse :=
  | TokensJSON (tokens : TokenResponse)
  | ErrorJSON (error : string) (status_code : Z).

(** A request to the token endpoint whose body the handler reads as a dict
    of strings: a form-encoded body ([dict(form)] of text fields), or a JSON
    object all of whose members are strings; and its [authorization]
    header.  A JSON body that is not an object, or that has a member that
    is not a string (a number, a list, an object, [null]), is not a value
    of this type: what the handler does with it is outside the model. *)
Record TokenRequest := {
  body : gmap string string;
  header_authorization : option string
}.

(** What [oauth_register] answers. *)
Inductive RegisterResponse :=
  | RegisteredJSON (client_data : ClientData) (status_code : Z)
  | RegisterErrorJSON (error : string) (status_code : Z).

Section FrontEnd.

Variable utcnow_at : nat → Z.
Variable token_urlsafe_at : nat → string.

(** The [n]-th [str(uuid.uuid4())]. *)
Variable uuid4_at : nat → string.

(** [int(dt.timestamp())] of a naive [datetime], which depends on the local
    time zone of the process. *)
Variable timestamp : Z → Z.

(** [base64.b64decode(text).decode()]; [None] when either step raises. *)
Variable b64decode_text : string → option string.

(** [exchange_code_for_tokens] and [refresh_access_token] as the endpoint
    calls them, with [body.get(...)] as first argument: [None] is the key of
    no entry, so the lookup fails and the function returns [None]. *)
Definition exchange_code_for_tokens_from (code : pystr)
    (client_id redirect_uri code_verifier : pystr) : M (option TokenResponse) :=
  match code with
  | Some code =>
      exchange_code_for_tokens utcnow_at token_urlsafe_at code client_id redirect_uri
        code_verifier
  | None => mret None
  end.

Definition refresh_access_token_from (refresh_token : pystr) (client_id : pystr)
    : M (option TokenResponse) :=
  match refresh_token with
  | Some refresh_token =>
      refresh_access_token utcnow_at token_urlsafe_at refresh_token client_id
  | None => mret None
  end.

(** The client credentials [oauth_token] goes on with: those of the body,
    replaced by those of a [Basic] header; [None] when decoding or splitting
    the header raises. *)
Definition token_credentials (request : TokenRequest) : option (pystr * pystr) :=
  let client_id := body request !! "client_id" in
  let client_secret := body request !! "client_secret" in
  let auth_header := default "" (header_authorization request) in
  if startswith "Basic " auth_header then
    match b64decode_text (slice_from 6 auth_header) with
    | Some decoded =>
        match split_once decoded with
        | Some (client_id, client_secret) => Some (Some client_id, Some client_secret)
        | None => None
        end
    | None => None
    end
  else Some (client_id, client_secret).

(** [oauth_token]; an exception inside the [try] is the answer
    [server_error]. *)
Definition oauth_token (request : TokenRequest) : M TokenEndpointResponse :=
  let grant_type := body request !! "grant_type" in
  match token_credentials request with
  | None => mret (ErrorJSON "server_error" 500)
  | Some (client_id, client_secret) =>
    if py_eq grant_type (Some "authorization_code") then
      let code := body request !! "code" in
      let redirect_uri := body request !! "redirect_uri" in
      let code_verifier := body request !! "code_verifier" in
      tokens ← exchange_code_for_tokens_from code client_id redirect_uri code_verifier;
      match tokens with
      | Some tokens => mret (TokensJSON tokens)
      | None => mret (ErrorJSON "invalid_grant" 400)
      end
    else if py_eq grant_type (Some "refresh_token") then
      let refresh_token_val := body request !! "refresh_token" in
      tokens ← refresh_access_token_from refresh_token_val client_id;
      match tokens with
      | Some tokens => mret (TokensJSON tokens)
      | None => mret (ErrorJSON "invalid_grant" 400)
      end
    else mret (ErrorJSON "unsupported_grant_type" 400)
  end.

Definition uuid4 : MS string :=
  fun s => (uuid4_at (uuid_reads s),
            {| oauth := oauth s;
               _registered_clients := _registered_clients s;
               uuid_reads := S (uuid_reads s) |}).

Definition set_client (client_id : string) (v : ClientData) : MS unit :=
  fun s => (tt, {| oauth := oauth s;
                   _registered_clients := <[client_id := v]> (_registered_clients s);
                   uuid_reads := uuid_reads s |}).

(** [register_client] on a dict. *)
Definition register_client (client_metadata : gmap string json) : MS ClientData :=
  client_id ← uuid4;
  client_secret ← lift (token_urlsafe token_urlsafe_at);
  issued ← lift (utcnow utcnow_at);
  let client_data :=
    {| cd_client_id := client_id;
       cd_client_secret := client_secret;
       cd_client_id_issued_at := timestamp issued;
       cd_client_secret_expires_at := 0;
       cd_redirect_uris := default (JArr []) (client_metadata !! "redirect_uris");
       cd_token_endpoint_auth_method :=
         default (JStr "client_secret_basic")
           (client_metadata !! "token_endpoint_auth_method");
       cd_grant_types :=
         default (JArr [JStr "authorization_code"; JStr "refresh_token"])
           (client_metadata !! "grant_types");
       cd_response_types :=
         default (JArr [JStr "code"]) (client_metadata !! "response_types");
       cd_client_name :=
         default (JStr "Unknown Client") (client_metadata !! "client_name");
       cd_scope :=
         default (JStr "mcp:tools mcp:resources") (client_metadata !! "scope") |} in
  set_client client_id client_data ;;
  mret client_data.

(** [get_client] *)
Definition get_client (client_id : string) : MS (option ClientData) :=
  fun s => (_registered_clients s !! client_id, s).

(** [oauth_register] on the value of [request.json()].  On a value that is
    not an object, [register_client] has drawn the identifier and the secret
    and read the clock when its first [client_metadata.get] raises. *)
Definition oauth_register (request_json : json) : MS RegisterResponse :=
  match as_dict request_json with
  | Some client_metadata =>
      client_data ← register_client client_metadata;
      mret (RegisteredJSON client_data 201)
  | None =>
      uuid4 ;;
      lift (token_urlsafe token_urlsafe_at) ;;
      lift (utcnow utcnow_at) ;;
      mret (RegisterErrorJSON "invalid_client_metadata" 400)
  end.

(** The gate of [sse_app] and [messages_app]: [Some] of the 401 answer when
    [check_auth] refuses the request, [None] when the request goes on to the
    transport. *)
Definition transport_gate (auth_token : pystr) (request : Request)
    : M (option (string * Z)) :=
  ok ← check_auth utcnow_at auth_token request;
  if negb ok then mret (Some ("Unauthorized", 401)) else mret None.

End FrontEnd.

(** The answer of the token endpoint to what a grant returned. *)
Definition grant_answer (tokens : option TokenResponse) : TokenEndpointResponse :=
  match tokens with
  | Some tokens => TokensJSON tokens
  | None => ErrorJSON "invalid_grant" 400
  end.

(** ** Sextets of bytes, for the shape of an S256 challenge *)

(** An index into the base64 alphabet, and the five indices
    [urlsafe_b64encode] computes from a byte and the byte after it. *)
Definition sextet_ok (i : Z) : bool := (0 <=? i) && (i <? 64).

Definition sextets_ok (a b : Z) : bool :=
  sextet_ok (Z.shiftr a 2)
  && sextet_ok (Z.lor (Z.shiftl (Z.land a 3) 4) (Z.shiftr b 4))
  && sextet_ok (Z.lor (Z.shiftl (Z.land a 15) 2) (Z.shiftr b 6))
  && sextet_ok (Z.land a 63)
  && sextet_ok (Z.shiftl (Z.land a 15) 2).

Definition byte_values : list Z := map Z.of_nat (seq 0 256).

(** A character of the URL-safe alphabet. *)
Definition url_safe (c : ascii) : Prop := In c b64_alphabet ∧ c ≠ "="%char.

(** ** Predicates on runs *)

(** A reply of an exchange that hands out [token] as a fresh refresh token. *)
Definition mints_refresh (token : string) (c : Call) (r : Reply) : Prop :=
  ∃ code client_id redirect_uri code_verifier t,
    c = exchange_call code client_id redirect_uri code_verifier
    ∧ r = tokens_reply (Some t) ∧ resp_refresh_token t = token.

(** A call that redeems, or tries to redeem, [code]. *)
Definition redeems (code : string) (c : Call) : Prop :=
  ∃ client_id redirect_uri code_verifier,
    c = exchange_call code client_id redirect_uri code_verifier.

(** Every stored code, access token and refresh token binds a client to a
    scope allowed by [P]. *)
Definition bound_within (P : pystr → pystr → Prop) (w : World) : Prop :=
  map_Forall (λ _ v, P (ac_client_id v) (ac_scope v)) (_authorization_codes w)
  ∧ map_Forall (λ _ v, P (at_client_id v) (at_scope v)) (_access_tokens w)
  ∧ map_Forall (λ _ v, P (rt_client_id v) (rt_scope v)) (_refresh_tokens w).

(** An authorization for a client and scope allowed by [P]; other calls
    bring no client and scope of their own. *)
Definition call_within (P : pystr → pystr → Prop) (c : Call) : Prop :=
  match c with
  | create_call client_id _ scope _ _ => P client_id scope
  | _ => True
  end.

(** What a call answered stays within [P]: the scope of the tokens for the
    client that asked, the client and scope of a validated record. *)
Definition answer_within (P : pystr → pystr → Prop) (c : Call) (r : Reply) : Prop :=
  match c, r with
  | exchange_call _ client_id _ _, tokens_reply (Some t) => P client_id (resp_scope t)
  | refresh_call _ client_id, tokens_reply (Some t) => P client_id (resp_scope t)
  | _, record_reply (Some record) => P (at_client_id record) (at_scope record)
  | _, _ => True
  end.

(** ** Sample environment: a clock that advances by one second per reading
    and a random source that never repeats. *)

Definition sample_clock (n : nat) : Z := 1000000 * Z.of_nat n.

Fixpoint sample_token (n : nat) : string :=
  match n with
  | O => "tok"
  | S n' => String "x" (sample_token n')
  end.

Definition empty_world : World :=
  {| _authorization_codes := ∅; _access_tokens := ∅; _refresh_tokens := ∅;
     clock_reads := 0; rng_reads := 0 |}.

(** A code bound to a sample client, stored under the key ["c0de"], in a
    world whose clock starts at 0. *)
Definition sample_code (code_challenge method : pystr) (expires_at : Z)
    : AuthorizationCode :=
  {| ac_client_id := Some "client-1";
     ac_redirect_uri := Some "https://app/cb";
     ac_scope := Some "mcp:tools";
     ac_code_challenge := code_challenge;
     ac_code_challenge_method := method;
     ac_created_at := 0;
     ac_expires_at := expires_at |}.

Definition world_with_code (auth_code : AuthorizationCode) : World :=
  {| _authorization_codes := {[ "c0de" := auth_code ]};
     _access_tokens := ∅; _refresh_tokens := ∅;
     clock_reads := 0; rng_reads := 0 |}.

Definition sample_exchange (auth_code : AuthorizationCode)
    (client_id redirect_uri code_verifier : pystr) : option TokenResponse * World :=
  exchange_code_for_tokens sample_clock sample_token "c0de"
    client_id redirect_uri code_verifier (world_with_code auth_code).

(** An access token stored under ["at-1"] and a refresh token under ["rt-1"]. *)
Definition sample_access (expires_at : Z) : AccessToken :=
  {| at_client_id := Some "client-1"; at_scope := Some "mcp:tools";
     at_created_at := 0; at_expires_at := expires_at |}.

Definition world_with_tokens (expires_at : Z) : World :=
  {| _authorization_codes := ∅;
     _access_tokens := {[ "at-1" := sample_access expires_at ]};
     _refresh_tokens := {[ "rt-1" := {| rt_client_id := Some "client-1";
                                       rt_scope := Some "mcp:tools";
                                       rt_created_at := 0 |} ]};
     clock_reads := 0; rng_reads := 0 |}.

(** Calls made after a code ["tok"] was issued with the S256 challenge of
    ["abc123"]: no verifier, the right verifier, a replay, and other traffic. *)
Definition replay_calls : list Call :=
  [exchange_call "tok" (Some "client-1") (Some "https://app/cb") None;
   exchange_call "tok" (Some "client-1") (Some "https://app/cb") (Some "abc123");
   exchange_call "tok" (Some "client-1") (Some "https://app/cb") (Some "abc123");
   validate_call "xtok";
   refresh_call "xxtok" (Some "client-1");
   create_call (Some "client-2") (Some "https://other/cb") None None None].

(** Sample front end: identifiers that never repeat, timestamps in whole
    seconds, and a decoder that knows the one header used below. *)
Definition sample_uuid (n : nat) : string := "uuid-" +:+ sample_token n.

Definition sample_timestamp (t : Z) : Z := t / 1000000.

Definition sample_basic : string := urlsafe_b64encode (encode "client-1:s3cret").

Definition sample_b64decode (text : string) : option string :=
  if String.eqb text sample_basic then Some "client-1:s3cret" else None.

Definition empty_server : Server :=
  {| oauth := empty_world; _registered_clients := ∅; uuid_reads := 0 |}.

(** The one binding of the sample worlds. *)
Definition sample_binding (client_id scope : pystr) : Prop :=
  client_id = Some "client-1" ∧ scope = Some "mcp:tools".

(** Traffic that does not name the code ["c0de"]. *)
Definition other_calls : list Call :=
  [validate_call "at-1";
   refresh_call "rt-1" (Some "client-1");
   exchange_call "other" (Some "client-1") (Some "https://app/cb") None;
   create_call (Some "client-1") (Some "https://app/cb") (Some "mcp:tools") None None].

(** A request to the token endpoint redeeming ["c0de"] for the sample client. *)
Definition sample_token_request (header : option string) : TokenRequest :=
  {| body := {[ "grant_type" := "authorization_code";
                "code" := "c0de";
                "client_id" := "client-1";
                "redirect_uri" := "https://app/cb" ]};
     header_authorization := header |}.

(** The claim about the plain method read to the letter: with the bound
    client and redirect URI on an unexpired code, the exchange succeeds
    exactly when the verifier is the stored challenge. *)
Definition plain_claim_as_stated (auth_code : AuthorizationCode)
    (code_verifier : pystr) : Prop :=
  is_Some (sample_exchange auth_code (ac_client_id auth_code)
             (ac_redirect_uri auth_code) code_verifier).1
  ↔ code_verifier = ac_code_challenge auth_code.

(** The claim about S256 read to the letter: with the bound client and
    redirect URI on an unexpired code, the exchange succeeds exactly when the
    S256 transform of the verifier is the stored challenge. *)
Definition s256_claim_as_stated (auth_code : AuthorizationCode) (v : string) : Prop :=
  is_Some (sample_exchange auth_code (ac_client_id auth_code)
             (ac_redirect_uri auth_code) (Some v)).1
  ↔ ac_code_challenge auth_code = Some (s256 v).

(** ** Unfolding the monadic code *)

(** Projections of an updated world. *)
Section WorldProjections.

Variables (w : World).
Variables (fc : gmap string AuthorizationCode → gmap string AuthorizationCode).
Variables (fa : gmap string AccessToken → gmap string AccessToken).
Variables (fr : gmap string RefreshToken → gmap string RefreshToken).

Lemma codes_tick : _authorization_codes (tick w) = _authorization_codes w.
Proof. reflexivity. Qed.
Lemma codes_draw : _authorization_codes (draw w) = _authorization_codes w.
Proof. reflexivity. Qed.
Lemma codes_with_codes : _authorization_codes (with_codes fc w) = fc (_authorization_codes w).
Proof. reflexivity. Qed.
Lemma codes_with_access : _authorization_codes (with_access fa w) = _authorization_codes w.
Proof. reflexivity. Qed.
Lemma codes_with_refresh : _authorization_codes (with_refresh fr w) = _authorization_codes w.
Proof. reflexivity. Qed.

Lemma access_tick : _access_tokens (tick w) = _access_tokens w.
Proof. reflexivity. Qed.
Lemma access_draw : _access_tokens (draw w) = _access_tokens w.
Proof. reflexivity. Qed.
Lemma access_with_codes : _access_tokens (with_codes fc w) = _access_tokens w.
Proof. reflexivity. Qed.
Lemma access_with_access : _access_tokens (with_access fa w) = fa (_access_tokens w).
Proof. reflexivity. Qed.
Lemma access_with_refresh : _access_tokens (with_refresh fr w) = _access_tokens w.
Proof. reflexivity. Qed.

Lemma refresh_tick : _refresh_tokens (tick w) = _refresh_tokens w.
Proof. reflexivity. Qed.
Lemma refresh_draw : _refresh_tokens (draw w) = _refresh_tokens w.
Proof. reflexivity. Qed.
Lemma refresh_with_codes : _refresh_tokens (with_codes fc w) = _refresh_tokens w.
Proof. reflexivity. Qed.
Lemma refresh_with_access : _refresh_tokens (with_access fa w) = _refresh_tokens w.
Proof. reflexivity. Qed.
Lemma refresh_with_refresh : _refresh_tokens (with_refresh fr w) = fr (_refresh_tokens w).
Proof. reflexivity. Qed.

Lemma clock_tick : clock_reads (tick w) = S (clock_reads w).
Proof. reflexivity. Qed.
Lemma clock_draw : clock_reads (draw w) = clock_reads w.
Proof. reflexivity. Qed.
Lemma clock_with_codes : clock_reads (with_codes fc w) = clock_reads w.
Proof. reflexivity. Qed.
Lemma clock_with_access : clock_reads (with_access fa w) = clock_reads w.
Proof. reflexivity. Qed.
Lemma clock_with_refresh : clock_reads (with_refresh fr w) = clock_reads w.
Proof. reflexivity. Qed.

Lemma rng_tick : rng_reads (tick w) = rng_reads w.
Proof. reflexivity. Qed.
Lemma rng_draw : rng_reads (draw w) = S (rng_reads w).
Proof. reflexivity. Qed.
Lemma rng_with_codes : rng_reads (with_codes fc w) = rng_reads w.
Proof. reflexivity. Qed.
Lemma rng_with_access : rng_reads (with_access fa w) = rng_reads w.
Proof. reflexivity. Qed.
Lemma rng_with_refresh : rng_reads (with_refresh fr w) = rng_reads w.
Proof. reflexivity. Qed.

End WorldProjections.

Create Rewrite HintDb world.
#[global] Hint Rewrite
  codes_tick codes_draw codes_with_codes codes_with_access codes_with_refresh
  access_tick access_draw access_with_codes access_with_access access_with_refresh
  refresh_tick refresh_draw refresh_with_codes refresh_with_access refresh_with_refresh
  clock_tick clock_draw clock_with_codes clock_with_access clock_with_refresh
  rng_tick rng_draw rng_with_codes rng_with_access rng_with_refresh : world.

#[global] Opaque tick draw with_codes with_access with_refresh.

Ltac unfold_ops :=
  unfold create_authorization_code, exchange_code_for_tokens,
    refresh_access_token, validate_access_token, check_auth,
    get_code, get_access, get_refresh, set_code, set_access, set_refresh,
    del_code, del_access, utcnow, token_urlsafe,
    fmap, M_fmap, mbind, M_bind, mret, M_ret in *.

Ltac world := autorewrite with world in *.

Ltac unfold_front :=
  unfold token_credentials, oauth_token, exchange_code_for_tokens_from,
    refresh_access_token_from, register_client, oauth_register, get_client,
    uuid4, set_client, lift, utcnow, token_urlsafe,
    mbind, MS_bind, M_bind, mret, MS_ret, M_ret in *.

Ltac split_branches :=
  repeat match goal with
    | |- context [match ?x with _ => _ end] => destruct x eqn:?
    | H : context [match ?x with _ => _ end] |- _ => destruct x eqn:?
    end.

Lemma py_eq_true (a b : pystr) : py_eq a b = true ↔ a = b.
Proof. unfold py_eq. apply bool_decide_eq_true. Qed.

Lemma py_eq_false (a b : pystr) : py_eq a b = false ↔ a ≠ b.
Proof. unfold py_eq. apply bool_decide_eq_false. Qed.

Lemma py_eq_refl (a : pystr) : py_eq a a = true.
Proof. by apply py_eq_true. Qed.

Lemma truthy_Some (v : pystr) : truthy v = true ↔ ∃ s, v = Some s ∧ s ≠ "".
Proof.
  destruct v as [s|]; simpl.
  - rewrite negb_true_iff, String.eqb_neq. naive_solver.
  - naive_solver.
Qed.

(** ** SHA-256 digests and their base64 form *)

Lemma be_bytes_length n x : length (SHA256.be_bytes n x) = n.
Proof. induction n as [|n IH]; simpl; [done|]. by rewrite IH. Qed.

Lemma be_bytes_bounded n x : Forall (λ b, 0 ≤ b < 256) (SHA256.be_bytes n x).
Proof.
  induction n as [|n IH]; simpl; constructor; [|done].
  change 255 with (Z.ones 8). rewrite Z.land_ones by lia.
  apply Z.mod_pos_bound. lia.
Qed.

Lemma compress_length h block : length h = 8%nat → length (SHA256.compress h block) = 8%nat.
Proof.
  intros Hh. unfold SHA256.compress. rewrite length_zip_with, Hh. done.
Qed.

Lemma fold_compress_length blocks : ∀ h,
  length h = 8%nat → length (fold_left SHA256.compress blocks h) = 8%nat.
Proof.
  induction blocks as [|b bs IH]; intros h Hh; simpl; [done|].
  apply IH. by apply compress_length.
Qed.

Lemma words_bytes h :
  length (concat (map (SHA256.be_bytes 4) h)) = (4 * length h)%nat
  ∧ Forall (λ b, 0 ≤ b < 256) (concat (map (SHA256.be_bytes 4) h)).
Proof.
  induction h as [|x h [IHl IHb]]; [by split|].
  change (concat (map (SHA256.be_bytes 4) (x :: h)))
    with (SHA256.be_bytes 4 x ++ concat (map (SHA256.be_bytes 4) h)).
  split.
  - rewrite length_app, be_bytes_length, IHl. simpl. lia.
  - apply Forall_app. split; [apply be_bytes_bounded | done].
Qed.

Lemma digest_bytes msg :
  length (SHA256.digest msg) = 32%nat ∧ Forall (λ b, 0 ≤ b < 256) (SHA256.digest msg).
Proof.
  unfold SHA256.digest. cbv zeta.
  destruct (words_bytes (fold_left SHA256.compress
              (SHA256.chunks 64 (length (SHA256.pad msg) / 64) (SHA256.pad msg)) SHA256.H0)) as [Hl Hb].
  split; [|done]. rewrite Hl, fold_compress_length; done.
Qed.

Lemma sextets_checked :
  forallb (λ a, forallb (sextets_ok a) byte_values) byte_values = true.
Proof. vm_compute. reflexivity. Qed.

Lemma byte_value_In b : 0 ≤ b < 256 → In b byte_values.
Proof.
  intros Hb. unfold byte_values. rewrite <- (Z2Nat.id b) by lia.
  apply in_map, in_seq. lia.
Qed.

Lemma sextets_bounded a b :
  0 ≤ a < 256 → 0 ≤ b < 256 → sextets_ok a b = true.
Proof.
  intros Ha Hb. pose proof sextets_checked as H.
  rewrite forallb_forall in H. specialize (H a (byte_value_In a Ha)).
  rewrite forallb_forall in H. exact (H b (byte_value_In b Hb)).
Qed.

Lemma b64_char_sextet i : sextet_ok i = true → url_safe (b64_char i).
Proof.
  unfold sextet_ok. intros H. apply andb_true_iff in H as [H0 H1].
  apply Z.leb_le in H0. apply Z.ltb_lt in H1.
  assert (In (b64_char i) b64_alphabet) as Hin.
  { unfold b64_char. apply nth_In.
    change (length b64_alphabet) with 64%nat. lia. }
  split; [done|]. intros E. rewrite E in Hin. vm_compute in Hin.
  repeat (destruct Hin as [Hin|Hin]; [discriminate Hin|]). done.
Qed.

Lemma rstrip_eq_padding cs :
  Forall (λ c, c ≠ "="%char) cs →
  rstrip_eq (string_of_list_ascii cs +:+ "=") = string_of_list_ascii cs.
Proof.
  induction 1 as [|c cs Hc Hcs IH]; [done|].
  cbn [string_of_list_ascii].
  change (String c (string_of_list_ascii cs) +:+ "=")
    with (String c (string_of_list_ascii cs +:+ "=")).
  cbn [rstrip_eq]. rewrite IH.
  destruct (string_of_list_ascii cs); [|done].
  by rewrite (proj2 (Ascii.eqb_neq _ _) Hc).
Qed.

Lemma urlsafe_b64encode_two_left k : ∀ bs,
  length bs = (3 * k + 2)%nat →
  Forall (λ b, 0 ≤ b < 256) bs →
  ∃ cs, urlsafe_b64encode bs = string_of_list_ascii cs +:+ "="
        ∧ length cs = (4 * k + 3)%nat
        ∧ Forall url_safe cs.
Proof.
  induction k as [|k IH]; intros bs Hlen Hb.
  - destruct bs as [|a [|b [|c bs]]]; try (cbn [length] in Hlen; lia).
    apply Forall_cons in Hb as [Ha Hb]. apply Forall_cons in Hb as [Hb _].
    pose proof (sextets_bounded a b Ha Hb) as Hab.
    pose proof (sextets_bounded b b Hb Hb) as Hbb.
    unfold sextets_ok in Hab, Hbb.
    apply andb_true_iff in Hab as [Hab _]. apply andb_true_iff in Hab as [Hab _].
    apply andb_true_iff in Hab as [Hab _]. apply andb_true_iff in Hab as [H1 H2].
    apply andb_true_iff in Hbb as [_ H3].
    exists [b64_char (Z.shiftr a 2);
            b64_char (Z.lor (Z.shiftl (Z.land a 3) 4) (Z.shiftr b 4));
            b64_char (Z.shiftl (Z.land b 15) 2)].
    split; [reflexivity|]. split; [reflexivity|].
    repeat (constructor; [by apply b64_char_sextet|]). constructor.
  - destruct bs as [|a [|b [|c bs]]]; try (cbn [length] in Hlen; lia).
    apply Forall_cons in Hb as [Ha Hb]. apply Forall_cons in Hb as [Hb Hc].
    apply Forall_cons in Hc as [Hc Hbs].
    destruct (IH bs) as (cs & E & Hcs & Hok); [cbn [length] in Hlen; lia|done|].
    pose proof (sextets_bounded a b Ha Hb) as Hab.
    pose proof (sextets_bounded b c Hb Hc) as Hbc.
    pose proof (sextets_bounded c c Hc Hc) as Hcc.
    unfold sextets_ok in Hab, Hbc, Hcc.
    apply andb_true_iff in Hab as [Hab _]. apply andb_true_iff in Hab as [Hab _].
    apply andb_true_iff in Hab as [Hab _]. apply andb_true_iff in Hab as [H1 H2].
    apply andb_true_iff in Hbc as [Hbc _]. apply andb_true_iff in Hbc as [Hbc _].
    apply andb_true_iff in Hbc as [_ H3].
    apply andb_true_iff in Hcc as [Hcc _]. apply andb_true_iff in Hcc as [_ H4].
    exists (b64_char (Z.shiftr a 2)
            :: b64_char (Z.lor (Z.shiftl (Z.land a 3) 4) (Z.shiftr b 4))
            :: b64_char (Z.lor (Z.shiftl (Z.land b 15) 2) (Z.shiftr c 6))
            :: b64_char (Z.land c 63) :: cs).
    split; [|split].
    + cbn [urlsafe_b64encode string_of_list_ascii]. by rewrite E.
    + cbn [length]. lia.
    + repeat (constructor; [by apply b64_char_sextet|]). done.
Qed.

Lemma length_string_of_list_ascii cs :
  String.length (string_of_list_ascii cs) = length cs.
Proof. induction cs as [|c cs IH]; simpl; [done|]. by rewrite IH. Qed.

Lemma s256_chars v :
  ∃ cs, s256 v = string_of_list_ascii cs ∧ length cs = 43%nat ∧ Forall url_safe cs.
Proof.
  unfold s256.
  destruct (digest_bytes (encode v)) as [Hlen Hb].
  destruct (urlsafe_b64encode_two_left 10 _ Hlen Hb) as (cs & -> & Hcs & Hok).
  exists cs. split; [|done]. apply rstrip_eq_padding.
  eapply Forall_impl; [exact Hok|]. by intros c [_ ?].
Qed.

(** X16. The S256 transform of any verifier is 43 characters long, all of
    them from the URL-safe base64 alphabet (letters, digits, [-] and [_]):
    the 32 bytes of the digest make 43 sextets and one padding character,
    and the padding is the only thing [rstrip] removes. *)
Theorem s256_shape v :
  String.length (s256 v) = 43%nat
  ∧ Forall (λ c, In c b64_alphabet) (list_ascii_of_string (s256 v)).
Proof.
  destruct (s256_chars v) as (cs & -> & Hcs & Hok).
  rewrite length_string_of_list_ascii, list_ascii_of_string_of_list_ascii.
  split; [done|]. eapply Forall_impl; [exact Hok|]. by intros c [? _].
Qed.

Section Properties.

Variable utcnow_at : nat → Z.
Variable token_urlsafe_at : nat → string.

Local Abbreviation create_authorization_code := (create_authorization_code utcnow_at token_urlsafe_at).
Local Abbreviation exchange_code_for_tokens := (exchange_code_for_tokens utcnow_at token_urlsafe_at).
Local Abbreviation refresh_access_token := (refresh_access_token utcnow_at token_urlsafe_at).
Local Abbreviation validate_access_token := (validate_access_token utcnow_at).
Local Abbreviation check_auth := (check_auth utcnow_at).
Local Abbreviation perform := (perform utcnow_at token_urlsafe_at).
Local Abbreviation run := (run utcnow_at token_urlsafe_at).

(** *** Single steps on the code store *)

Lemma exchange_absent code client_id redirect_uri code_verifier w :
  _authorization_codes w !! code = None →
  exchange_code_for_tokens code client_id redirect_uri code_verifier w = (None, w).
Proof. intros H. unfold_ops. by rewrite H. Qed.

Lemma exchange_success_removes code client_id redirect_uri code_verifier w t w' :
  exchange_code_for_tokens code client_id redirect_uri code_verifier w = (Some t, w') →
  _authorization_codes w' = delete code (_authorization_codes w).
Proof.
  unfold_ops. intros H. split_branches; simplify_eq; by world.
Qed.

Lemma create_stores client_id redirect_uri scope code_challenge method w :
  (create_authorization_code client_id redirect_uri scope code_challenge method w).1
  = token_urlsafe_at (rng_reads w)
  ∧ _authorization_codes
      (create_authorization_code client_id redirect_uri scope code_challenge method w).2
    !! token_urlsafe_at (rng_reads w)
    = Some {| ac_client_id := client_id;
              ac_redirect_uri := redirect_uri;
              ac_scope := scope;
              ac_code_challenge := code_challenge;
              ac_code_challenge_method := method;
              ac_created_at := utcnow_at (clock_reads w);
              ac_expires_at := utcnow_at (S (clock_reads w)) + timedelta_minutes 10 |}.
Proof.
  unfold_ops. simpl. world. split; [done|]. apply lookup_insert_eq.
Qed.

(** A call other than a [create_authorization_code] that draws [code] again
    never puts [code] back into the code store. *)
Lemma perform_keeps_absent code c w :
  _authorization_codes w !! code = None →
  (perform c w).1 ≠ code_reply code →
  _authorization_codes (perform c w).2 !! code = None.
Proof.
  intros Habs Hne. destruct c as [? ? ? ? ?| code0 ? ? ? | ? ? | ?]; simpl in *; unfold_ops.
  - simpl in *. world. rewrite lookup_insert_ne; [done | congruence].
  - split_branches; simplify_eq; simpl; world; try done.
    all: destruct (decide (code0 = code)) as [->|];
      [by rewrite lookup_delete_eq | by rewrite lookup_delete_ne].
  - split_branches; simplify_eq; simpl; by world.
  - split_branches; simplify_eq; simpl; by world.
Qed.

Lemma perform_exchange code client_id redirect_uri code_verifier w :
  perform (exchange_call code client_id redirect_uri code_verifier) w
  = (tokens_reply (exchange_code_for_tokens code client_id redirect_uri code_verifier w).1,
     (exchange_code_for_tokens code client_id redirect_uri code_verifier w).2).
Proof.
  simpl. unfold fmap, M_fmap. by destruct (exchange_code_for_tokens _ _ _ _ _).
Qed.

Lemma perform_refresh refresh_token client_id w :
  perform (refresh_call refresh_token client_id) w
  = (tokens_reply (refresh_access_token refresh_token client_id w).1,
     (refresh_access_token refresh_token client_id w).2).
Proof.
  simpl. unfold fmap, M_fmap. by destruct (refresh_access_token _ _ _).
Qed.

Lemma perform_validate token w :
  perform (validate_call token) w
  = (record_reply (validate_access_token token w).1,
     (validate_access_token token w).2).
Proof.
  simpl. unfold fmap, M_fmap. by destruct (validate_access_token _ _).
Qed.

(** *** Runs *)

Lemma run_cons_replies c cs w :
  (run (c :: cs) w).1 = (perform c w).1 :: (run cs (perform c w).2).1.
Proof.
  simpl. unfold mbind, M_bind, mret, M_ret.
  destruct (perform c w) as [r w1]. simpl.
  by destruct (run cs w1).
Qed.

(** Once a code is out of the store, every later attempt to redeem it
    fails, as long as the random source does not issue it again. *)
Lemma run_absent code calls : ∀ w j a b c,
  _authorization_codes w !! code = None →
  (∀ r, r ∈ (run calls w).1 → r ≠ code_reply code) →
  calls !! j = Some (exchange_call code a b c) →
  (run calls w).1 !! j = Some (tokens_reply None).
Proof.
  induction calls as [|c0 cs IH]; intros w j a b c Habs Hfresh Hj; [done|].
  rewrite run_cons_replies in *.
  destruct j as [|j]; simpl in Hj |- *.
  - simplify_eq. by rewrite perform_exchange, exchange_absent.
  - eapply IH; [| |done].
    + apply perform_keeps_absent; [done|]. apply Hfresh. by left.
    + intros r Hr. apply Hfresh. by right.
Qed.

Lemma run_after_redeem code calls : ∀ w i j a b c t a' b' c',
  (∀ r, r ∈ (run calls w).1 → r ≠ code_reply code) →
  calls !! i = Some (exchange_call code a b c) →
  (run calls w).1 !! i = Some (tokens_reply (Some t)) →
  calls !! j = Some (exchange_call code a' b' c') →
  (i < j)%nat →
  (run calls w).1 !! j = Some (tokens_reply None).
Proof.
  induction calls as [|c0 cs IH]; intros w i j a b c t a' b' c' Hfresh Hi Hri Hj Hlt;
    [done|].
  rewrite run_cons_replies in *.
  destruct j as [|j]; [lia|]. destruct i as [|i]; simpl in Hi, Hri, Hj |- *.
  - simplify_eq. rewrite perform_exchange in *. simpl in *. simplify_eq.
    eapply run_absent; [| |done].
    + destruct (exchange_code_for_tokens code a b c w) as [o w1] eqn:E.
      simpl in *. subst o.
      rewrite (exchange_success_removes _ _ _ _ _ _ _ E).
      apply lookup_delete_eq.
    + intros r Hr. apply Hfresh. by right.
  - eapply (IH _ i j); [|exact Hi|exact Hri|exact Hj|lia].
    intros r Hr. apply Hfresh. by right.
Qed.

(** C1. A code stored by [create_authorization_code] is redeemed at most
    once: in any run that follows (in which the random source does not
    issue the same code a second time), after a call to
    [exchange_code_for_tokens] with that code has returned tokens, every
    later call with the code returns [None], whatever its other arguments,
    the bound ones included; so no two calls succeed; and a successful
    redemption leaves the code out of the code store. *)
Theorem code_single_use client_id redirect_uri scope code_challenge method w calls :
  let code := (create_authorization_code client_id redirect_uri scope
                 code_challenge method w).1 in
  let w1 := (create_authorization_code client_id redirect_uri scope
               code_challenge method w).2 in
  let replies := (run calls w1).1 in
  (∀ r, r ∈ replies → r ≠ code_reply code) →
  (∃ auth_code, _authorization_codes w1 !! code = Some auth_code
     ∧ ac_client_id auth_code = client_id
     ∧ ac_redirect_uri auth_code = redirect_uri)
  ∧ (∀ i j a b c t a' b' c',
       calls !! i = Some (exchange_call code a b c) →
       replies !! i = Some (tokens_reply (Some t)) →
       calls !! j = Some (exchange_call code a' b' c') →
       (i < j)%nat →
       replies !! j = Some (tokens_reply None))
  ∧ (∀ i j a b c t a' b' c' t',
       calls !! i = Some (exchange_call code a b c) →
       replies !! i = Some (tokens_reply (Some t)) →
       calls !! j = Some (exchange_call code a' b' c') →
       replies !! j = Some (tokens_reply (Some t')) →
       i = j)
  ∧ (∀ w2 a b c t w3,
       exchange_code_for_tokens code a b c w2 = (Some t, w3) →
       _authorization_codes w3 !! code = None).
Proof.
  intros code w1 replies Hfresh. repeat split.
  - subst w1 code.
    destruct (create_stores client_id redirect_uri scope code_challenge method w)
      as [-> ->].
    eauto.
  - intros i j a b c t a' b' c' Hi Hri Hj Hlt.
    exact (run_after_redeem code calls w1 i j _ _ _ _ _ _ _ Hfresh Hi Hri Hj Hlt).
  - intros i j a b c t a' b' c' t' Hi Hri Hj Hrj.
    destruct (Nat.lt_trichotomy i j) as [Hlt|[->|Hlt]]; [|done|].
    + pose proof (run_after_redeem code calls w1 i j _ _ _ _ _ _ _
                    Hfresh Hi Hri Hj Hlt) as H.
      subst replies. congruence.
    + pose proof (run_after_redeem code calls w1 j i _ _ _ _ _ _ _
                    Hfresh Hj Hrj Hi Hlt) as H.
      subst replies. congruence.
  - intros w2 a b c t w3 E.
    rewrite (exchange_success_removes _ _ _ _ _ _ _ E).
    apply lookup_delete_eq.
Qed.


(** *** The PKCE step *)

Lemma pkce_rejects_false auth_code code_verifier :
  pkce_rejects auth_code code_verifier = false ↔ pkce_verified auth_code code_verifier.
Proof.
  unfold pkce_rejects, pkce_verified.
  destruct (truthy (ac_code_challenge auth_code)) eqn:Hch; [|naive_solver].
  destruct code_verifier as [v|]; simpl; [|naive_solver].
  destruct (String.eqb_spec v "") as [->|Hv]; simpl; [naive_solver|].
  destruct (decide (ac_code_challenge_method auth_code = Some "S256")) as [Hm|Hm].
  - rewrite (proj2 (py_eq_true _ _) Hm).
    destruct (py_eq (Some (s256 v)) (ac_code_challenge auth_code)) eqn:E; simpl.
    + apply py_eq_true in E. naive_solver.
    + apply py_eq_false in E. naive_solver.
  - rewrite (proj2 (py_eq_false _ _) Hm).
    destruct (py_eq (Some v) (ac_code_challenge auth_code)) eqn:E; simpl.
    + apply py_eq_true in E. naive_solver.
    + apply py_eq_false in E. naive_solver.
Qed.

Lemma pkce_rejects_true auth_code code_verifier :
  pkce_rejects auth_code code_verifier = true ↔ ¬ pkce_verified auth_code code_verifier.
Proof.
  rewrite <- pkce_rejects_false. by destruct (pkce_rejects _ _).
Qed.

(** *** [exchange_code_for_tokens] on a stored code, branch by branch *)

Section Exchange.

Variables (code : string) (client_id redirect_uri code_verifier : pystr).
Variables (w : World) (auth_code : AuthorizationCode).
Hypothesis stored : _authorization_codes w !! code = Some auth_code.

Let result := exchange_code_for_tokens code client_id redirect_uri code_verifier w.
Let now := utcnow_at (clock_reads w).

Lemma exchange_mismatch :
  ac_client_id auth_code ≠ client_id ∨ ac_redirect_uri auth_code ≠ redirect_uri →
  result = (None, w).
Proof.
  subst result. unfold_ops. rewrite stored. intros [H|H].
  - apply py_eq_false in H. by rewrite H.
  - apply py_eq_false in H. rewrite H. by destruct (py_eq _ client_id).
Qed.

Hypothesis same_client : ac_client_id auth_code = client_id.
Hypothesis same_redirect : ac_redirect_uri auth_code = redirect_uri.

Lemma exchange_expired :
  ac_expires_at auth_code < now →
  result.1 = None
  ∧ _authorization_codes result.2 = delete code (_authorization_codes w)
  ∧ _access_tokens result.2 = _access_tokens w
  ∧ _refresh_tokens result.2 = _refresh_tokens w.
Proof.
  subst result now. unfold_ops. rewrite stored, same_client, same_redirect, !py_eq_refl.
  intros H. apply Z.ltb_lt in H. simpl. by rewrite H.
Qed.

Hypothesis unexpired : ¬ (ac_expires_at auth_code < now).

Lemma exchange_pkce_rejected :
  ¬ pkce_verified auth_code code_verifier →
  result.1 = None
  ∧ _authorization_codes result.2 = _authorization_codes w
  ∧ _access_tokens result.2 = _access_tokens w
  ∧ _refresh_tokens result.2 = _refresh_tokens w.
Proof.
  subst result now. unfold_ops. rewrite stored, same_client, same_redirect, !py_eq_refl.
  intros H. apply pkce_rejects_true in H. apply Z.ltb_nlt in unexpired.
  simpl. by rewrite unexpired, H.
Qed.

Lemma exchange_accepted :
  pkce_verified auth_code code_verifier →
  result.1 = Some {| resp_access_token := token_urlsafe_at (rng_reads w);
                     resp_token_type := "Bearer";
                     resp_expires_in := 3600;
                     resp_refresh_token := token_urlsafe_at (S (rng_reads w));
                     resp_scope := ac_scope auth_code |}
  ∧ _authorization_codes result.2 = delete code (_authorization_codes w)
  ∧ _access_tokens result.2
    = <[token_urlsafe_at (rng_reads w) :=
          {| at_client_id := client_id; at_scope := ac_scope auth_code;
             at_created_at := utcnow_at (S (clock_reads w));
             at_expires_at := utcnow_at (S (S (clock_reads w)))
                              + timedelta_seconds 3600 |}]> (_access_tokens w)
  ∧ _refresh_tokens result.2
    = <[token_urlsafe_at (S (rng_reads w)) :=
          {| rt_client_id := client_id; rt_scope := ac_scope auth_code;
             rt_created_at := utcnow_at (S (S (S (clock_reads w)))) |}]>
        (_refresh_tokens w).
Proof.
  subst result now. unfold_ops. rewrite stored, same_client, same_redirect, !py_eq_refl.
  intros H. apply pkce_rejects_false in H. apply Z.ltb_nlt in unexpired.
  simpl. by rewrite unexpired, H.
Qed.

End Exchange.

Local Abbreviation exchange_path := (exchange_path utcnow_at token_urlsafe_at).

(** Every call takes one of the five paths. *)
Lemma exchange_follows_path code client_id redirect_uri code_verifier w :
  exchange_path code client_id redirect_uri code_verifier w
    (exchange_code_for_tokens code client_id redirect_uri code_verifier w).1
    (exchange_code_for_tokens code client_id redirect_uri code_verifier w).2.
Proof.
  destruct (_authorization_codes w !! code) as [ac|] eqn:Hl.
  2: { rewrite exchange_absent by done. by constructor. }
  destruct (decide (ac_client_id ac = client_id)) as [Hc|Hc].
  2: { rewrite (exchange_mismatch _ _ _ _ _ _ Hl) by auto. econstructor 2; eauto. }
  destruct (decide (ac_redirect_uri ac = redirect_uri)) as [Hr|Hr].
  2: { rewrite (exchange_mismatch _ _ _ _ _ _ Hl) by auto. econstructor 2; eauto. }
  destruct (decide (ac_expires_at ac < utcnow_at (clock_reads w))) as [He|He].
  { destruct (exchange_expired _ _ _ code_verifier _ _ Hl Hc Hr He) as (-> & ? & ? & ?).
    by econstructor 3. }
  destruct (pkce_rejects ac code_verifier) eqn:Hp.
  - apply pkce_rejects_true in Hp.
    destruct (exchange_pkce_rejected _ _ _ _ _ _ Hl Hc Hr He Hp) as (-> & ? & ? & ?).
    by econstructor 4.
  - apply pkce_rejects_false in Hp.
    destruct (exchange_accepted _ _ _ _ _ _ Hl Hc Hr He Hp) as (-> & ? & ? & ?).
    by econstructor 5.
Qed.

Lemma exchange_Some_inv code client_id redirect_uri code_verifier w t :
  (exchange_code_for_tokens code client_id redirect_uri code_verifier w).1 = Some t →
  ∃ auth_code,
    _authorization_codes w !! code = Some auth_code
    ∧ ac_client_id auth_code = client_id
    ∧ ac_redirect_uri auth_code = redirect_uri
    ∧ ¬ (ac_expires_at auth_code < utcnow_at (clock_reads w))
    ∧ pkce_verified auth_code code_verifier.
Proof.
  intros E.
  pose proof (exchange_follows_path code client_id redirect_uri code_verifier w) as P.
  rewrite E in P. inversion P; subst. eauto 10.
Qed.

Lemma exchange_needs_pkce code client_id redirect_uri code_verifier w auth_code :
  _authorization_codes w !! code = Some auth_code →
  ¬ pkce_verified auth_code code_verifier →
  (exchange_code_for_tokens code client_id redirect_uri code_verifier w).1 = None.
Proof.
  intros Hl Hp.
  destruct (exchange_code_for_tokens _ _ _ _ _).1 as [t|] eqn:E; [|done].
  apply exchange_Some_inv in E as (ac & Hl' & _ & _ & _ & Hv).
  rewrite Hl in Hl'. by simplify_eq.
Qed.

Lemma pkce_needs_verifier auth_code code_verifier :
  truthy (ac_code_challenge auth_code) = true →
  truthy code_verifier = false →
  ¬ pkce_verified auth_code code_verifier.
Proof.
  intros Hch Hv [H|(v & -> & Hne & _)]; [congruence|].
  simpl in Hv. apply negb_false_iff, String.eqb_eq in Hv. done.
Qed.

(** ** The claims about [exchange_code_for_tokens] *)

(** C2. In [exchange_code_for_tokens] the code is deleted for single use
    only after the lookup, the client_id match, the redirect_uri match, the
    expiry check and the PKCE step have all passed, and tokens are returned
    only by a call that deletes the code.  A call that returns [None]
    stores no access token and no refresh token, and leaves the code store
    as it was unless it is the expiry eviction (bound client and redirect
    URI, [expires_at] earlier than the clock reading), which deletes the
    code. *)
Theorem exchange_deletes_after_validation code client_id redirect_uri code_verifier w :
  let r := (exchange_code_for_tokens code client_id redirect_uri code_verifier w).1 in
  let w' := (exchange_code_for_tokens code client_id redirect_uri code_verifier w).2 in
  (∀ t, r = Some t →
     ∃ auth_code,
       _authorization_codes w !! code = Some auth_code
       ∧ ac_client_id auth_code = client_id
       ∧ ac_redirect_uri auth_code = redirect_uri
       ∧ ¬ (ac_expires_at auth_code < utcnow_at (clock_reads w))
       ∧ pkce_verified auth_code code_verifier
       ∧ _authorization_codes w' = delete code (_authorization_codes w))
  ∧ (r = None →
       _access_tokens w' = _access_tokens w
       ∧ _refresh_tokens w' = _refresh_tokens w
       ∧ (_authorization_codes w' = _authorization_codes w
          ∨ ∃ auth_code,
              _authorization_codes w !! code = Some auth_code
              ∧ ac_client_id auth_code = client_id
              ∧ ac_redirect_uri auth_code = redirect_uri
              ∧ ac_expires_at auth_code < utcnow_at (clock_reads w)
              ∧ _authorization_codes w' = delete code (_authorization_codes w))).
Proof.
  intros r w'. subst r w'.
  pose proof (exchange_follows_path code client_id redirect_uri code_verifier w) as P.
  destruct (exchange_code_for_tokens code client_id redirect_uri code_verifier w)
    as [r w'].
  simpl in *. split.
  - intros t ->. inversion P; subst. eauto 10.
  - intros ->. inversion P; subst; repeat split; try congruence;
      first [by left | right; eauto 10].
Qed.

(** C3 (amended). For a stored, unexpired code whose method is ["S256"],
    redeemed with the bound client_id and redirect_uri:
    [exchange_code_for_tokens] returns tokens exactly when no non-empty
    challenge was recorded (the PKCE step is skipped), or the verifier is a
    non-empty string whose S256 transform, base64url of its SHA-256 with the
    padding stripped, equals the recorded challenge.  With any other
    verifier, the empty string and [None] included, it returns [None]. *)
Theorem pkce_s256 code client_id redirect_uri code_verifier w auth_code :
  _authorization_codes w !! code = Some auth_code →
  ac_code_challenge_method auth_code = Some "S256" →
  ac_client_id auth_code = client_id →
  ac_redirect_uri auth_code = redirect_uri →
  ¬ (ac_expires_at auth_code < utcnow_at (clock_reads w)) →
  let r := (exchange_code_for_tokens code client_id redirect_uri code_verifier w).1 in
  let accepted :=
    truthy (ac_code_challenge auth_code) = false
    ∨ ∃ v, code_verifier = Some v ∧ v ≠ ""
           ∧ ac_code_challenge auth_code = Some (s256 v) in
  (is_Some r ↔ accepted) ∧ (¬ accepted → r = None).
Proof.
  intros Hl Hm Hc Hr He r accepted.
  assert (accepted ↔ pkce_verified auth_code code_verifier) as Hacc.
  { subst accepted. unfold pkce_verified.
    by destruct (decide (ac_code_challenge_method auth_code = Some "S256")). }
  subst r. split.
  - rewrite Hacc. split.
    + intros [t E]. apply exchange_Some_inv in E as (ac & Hl' & _ & _ & _ & Hv).
      rewrite Hl in Hl'. by simplify_eq.
    + intros Hv.
      destruct (exchange_accepted _ _ _ _ _ _ Hl Hc Hr He Hv) as (-> & _). eauto.
  - rewrite Hacc. intros Hv. by eapply exchange_needs_pkce.
Qed.

(** C4 (amended). For a stored code with a non-empty challenge recorded:
    when the method is anything but ["S256"] and the code is unexpired and
    redeemed with its bound client_id and redirect_uri, the exchange returns
    tokens exactly when the verifier is the same string as the challenge;
    and with no verifier supplied the exchange returns [None] whatever the
    other arguments. *)
Theorem pkce_plain code w auth_code :
  _authorization_codes w !! code = Some auth_code →
  truthy (ac_code_challenge auth_code) = true →
  (ac_code_challenge_method auth_code ≠ Some "S256" →
   ¬ (ac_expires_at auth_code < utcnow_at (clock_reads w)) →
   ∀ code_verifier,
     is_Some (exchange_code_for_tokens code (ac_client_id auth_code)
                (ac_redirect_uri auth_code) code_verifier w).1
     ↔ code_verifier = ac_code_challenge auth_code)
  ∧ (∀ client_id redirect_uri,
       (exchange_code_for_tokens code client_id redirect_uri None w).1 = None).
Proof.
  intros Hl Hch. split.
  - intros Hm He cv.
    assert (pkce_verified auth_code cv ↔ cv = ac_code_challenge auth_code) as Hv.
    { unfold pkce_verified.
      destruct (decide (ac_code_challenge_method auth_code = Some "S256")); [done|].
      apply truthy_Some in Hch as (ch & Hch' & Hne). rewrite Hch'. split.
      - intros [H|(v & -> & _ & ?)]; [|congruence].
        simpl in H. apply negb_false_iff, String.eqb_eq in H. done.
      - intros ->. right. exists ch. auto. }
    rewrite <- Hv. split.
    + intros [t E]. apply exchange_Some_inv in E as (ac & Hl' & _ & _ & _ & Hp).
      rewrite Hl in Hl'. by simplify_eq.
    + intros Hp.
      destruct (exchange_accepted _ _ _ _ _ _ Hl eq_refl eq_refl He Hp) as (-> & _).
      eauto.
  - intros client_id redirect_uri. eapply exchange_needs_pkce; [done|].
    by apply pkce_needs_verifier.
Qed.

(** C5. Redeeming a stored code whose [expires_at] is strictly earlier than
    the clock reading, with the bound client_id and redirect_uri, returns
    [None] and removes the code from the code store; a second attempt with
    the same code, whatever its arguments, returns [None] too. *)
Theorem expired_code_evicted code client_id redirect_uri code_verifier w auth_code :
  _authorization_codes w !! code = Some auth_code →
  ac_client_id auth_code = client_id →
  ac_redirect_uri auth_code = redirect_uri →
  ac_expires_at auth_code < utcnow_at (clock_reads w) →
  let r := (exchange_code_for_tokens code client_id redirect_uri code_verifier w).1 in
  let w' := (exchange_code_for_tokens code client_id redirect_uri code_verifier w).2 in
  r = None
  ∧ _authorization_codes w' !! code = None
  ∧ ∀ client_id' redirect_uri' code_verifier',
      (exchange_code_for_tokens code client_id' redirect_uri' code_verifier' w').1 = None.
Proof.
  intros Hl Hc Hr He r w'. subst r w'.
  destruct (exchange_expired _ _ _ code_verifier _ _ Hl Hc Hr He) as (-> & Hd & _).
  assert (_authorization_codes
            (exchange_code_for_tokens code client_id redirect_uri code_verifier w).2
          !! code = None) as Habs.
  { rewrite Hd. apply lookup_delete_eq. }
  repeat split; [done|]. intros. by rewrite exchange_absent.
Qed.

(** C6. [exchange_code_for_tokens] returns [None], and changes nothing,
    whenever the client_id supplied is not the very string bound to the
    code, or the redirect_uri supplied is not the very string bound to it,
    whatever the expiry and the verifier; and the strings bound are those
    given to [create_authorization_code], unchanged. *)
Theorem mismatch_rejected code client_id redirect_uri code_verifier w auth_code :
  (_authorization_codes w !! code = Some auth_code →
   ac_client_id auth_code ≠ client_id ∨ ac_redirect_uri auth_code ≠ redirect_uri →
   exchange_code_for_tokens code client_id redirect_uri code_verifier w = (None, w))
  ∧ (∀ bound_client bound_redirect scope challenge method,
       let created := create_authorization_code bound_client bound_redirect scope
                        challenge method w in
       bound_client ≠ client_id ∨ bound_redirect ≠ redirect_uri →
       exchange_code_for_tokens created.1 client_id redirect_uri code_verifier created.2
       = (None, created.2)).
Proof.
  split.
  - intros Hl Hne. by eapply exchange_mismatch.
  - intros bc br sc ch m created Hne. subst created.
    destruct (create_stores bc br sc ch m w) as [E Hl]. rewrite E.
    by apply (exchange_mismatch _ _ _ _ _ _ Hl).
Qed.

(** C9. A stored challenge that is the empty string switches the PKCE step
    off: the exchange of an unexpired code with its bound client_id and
    redirect_uri returns tokens whatever the verifier, [None] included.
    With a non-empty challenge stored, an empty-string verifier is taken as
    missing and the exchange returns [None].  [oauth_authorize] stores the
    [code_challenge] query parameter as it comes, the empty string
    included. *)
Theorem empty_challenge_skips_pkce code w auth_code :
  _authorization_codes w !! code = Some auth_code →
  (ac_code_challenge auth_code = Some "" →
   ¬ (ac_expires_at auth_code < utcnow_at (clock_reads w)) →
   ∀ code_verifier,
     is_Some (exchange_code_for_tokens code (ac_client_id auth_code)
                (ac_redirect_uri auth_code) code_verifier w).1)
  ∧ (truthy (ac_code_challenge auth_code) = true →
     ∀ client_id redirect_uri,
       (exchange_code_for_tokens code client_id redirect_uri (Some "") w).1 = None)
  ∧ (∀ query_params w0,
       query_params !! "response_type" = Some "code" →
       ∃ stored,
         _authorization_codes (oauth_authorize utcnow_at token_urlsafe_at query_params w0).2
           !! token_urlsafe_at (rng_reads w0) = Some stored
         ∧ ac_code_challenge stored = query_params !! "code_challenge"
         ∧ ac_client_id stored = query_params !! "client_id"
         ∧ ac_redirect_uri stored = query_params !! "redirect_uri").
Proof.
  intros Hl. repeat split.
  - intros Hch He cv.
    assert (pkce_verified auth_code cv) as Hp by (left; by rewrite Hch).
    destruct (exchange_accepted _ _ _ _ _ _ Hl eq_refl eq_refl He Hp) as (-> & _).
    eauto.
  - intros Hch client_id redirect_uri. eapply exchange_needs_pkce; [done|].
    by apply pkce_needs_verifier.
  - intros qp w0 Hrt. unfold oauth_authorize. rewrite Hrt, py_eq_refl. simpl.
    unfold_ops. simpl.
    destruct (negb (default "" (qp !! "state") =? ""))%string; simpl.
    all: world; rewrite lookup_insert_eq; eauto.
Qed.

(** ** [validate_access_token] *)

Lemma validate_absent token w :
  _access_tokens w !! token = None →
  validate_access_token token w = (None, w).
Proof. intros H. unfold_ops. by rewrite H. Qed.

Lemma validate_expired token w record :
  _access_tokens w !! token = Some record →
  at_expires_at record < utcnow_at (clock_reads w) →
  (validate_access_token token w).1 = None
  ∧ _access_tokens (validate_access_token token w).2 = delete token (_access_tokens w)
  ∧ _authorization_codes (validate_access_token token w).2 = _authorization_codes w
  ∧ _refresh_tokens (validate_access_token token w).2 = _refresh_tokens w.
Proof.
  intros Hl He. apply Z.ltb_lt in He. unfold_ops. rewrite Hl. simpl. rewrite He.
  simpl. by world.
Qed.

Lemma validate_live token w record :
  _access_tokens w !! token = Some record →
  ¬ (at_expires_at record < utcnow_at (clock_reads w)) →
  (validate_access_token token w).1 = Some record
  ∧ _access_tokens (validate_access_token token w).2 = _access_tokens w
  ∧ _authorization_codes (validate_access_token token w).2 = _authorization_codes w
  ∧ _refresh_tokens (validate_access_token token w).2 = _refresh_tokens w.
Proof.
  intros Hl He. apply Z.ltb_nlt in He. unfold_ops. rewrite Hl. simpl. rewrite He.
  simpl. by world.
Qed.

Lemma refresh_rejected refresh_token client_id w :
  _refresh_tokens w !! refresh_token = None
  ∨ (∃ token_data, _refresh_tokens w !! refresh_token = Some token_data
                   ∧ rt_client_id token_data ≠ client_id) →
  refresh_access_token refresh_token client_id w = (None, w).
Proof.
  unfold_ops. intros [H|(td & H & Hne)]; rewrite H; [done|].
  apply py_eq_false in Hne. by rewrite Hne.
Qed.

Lemma refresh_granted refresh_token client_id w token_data :
  _refresh_tokens w !! refresh_token = Some token_data →
  rt_client_id token_data = client_id →
  (refresh_access_token refresh_token client_id w).1
  = Some {| resp_access_token := token_urlsafe_at (rng_reads w);
            resp_token_type := "Bearer";
            resp_expires_in := 3600;
            resp_refresh_token := refresh_token;
            resp_scope := rt_scope token_data |}
  ∧ _access_tokens (refresh_access_token refresh_token client_id w).2
    = <[token_urlsafe_at (rng_reads w) :=
          {| at_client_id := client_id; at_scope := rt_scope token_data;
             at_created_at := utcnow_at (clock_reads w);
             at_expires_at := utcnow_at (S (clock_reads w))
                              + timedelta_seconds 3600 |}]> (_access_tokens w)
  ∧ _refresh_tokens (refresh_access_token refresh_token client_id w).2 = _refresh_tokens w
  ∧ _authorization_codes (refresh_access_token refresh_token client_id w).2
    = _authorization_codes w
  ∧ rng_reads (refresh_access_token refresh_token client_id w).2 = S (rng_reads w)
  ∧ clock_reads (refresh_access_token refresh_token client_id w).2
    = S (S (clock_reads w)).
Proof.
  intros Hl Hc. unfold_ops. rewrite Hl, Hc, py_eq_refl. simpl. by world.
Qed.

Lemma perform_keeps_token_absent token c w :
  _access_tokens w !! token = None →
  ¬ mints token (perform c w).1 →
  _access_tokens (perform c w).2 !! token = None.
Proof.
  intros Habs Hne. destruct c as [? ? ? ? ?| code cid ruri cv | rt cid | tok].
  - simpl. unfold_ops. simpl. by world.
  - rewrite perform_exchange in *. simpl in *.
    pose proof (exchange_follows_path code cid ruri cv w) as P.
    destruct (exchange_code_for_tokens code cid ruri cv w) as [r w1]. simpl in *.
    inversion P as [ | | | | ac t ? ? ? ? ? ? Ht ? Hacc ? ]; subst; try congruence.
    rewrite Hacc. rewrite lookup_insert_ne; [done|].
    intros E. apply Hne. eexists. split; [done|]. done.
  - rewrite perform_refresh in *. simpl in *.
    destruct (_refresh_tokens w !! rt) as [td|] eqn:Hl.
    2: { rewrite refresh_rejected; auto. }
    destruct (decide (rt_client_id td = cid)) as [Hc|Hc].
    2: { rewrite refresh_rejected; eauto. }
    destruct (refresh_granted _ _ _ _ Hl Hc) as (E & A & _).
    rewrite A, lookup_insert_ne; [done|].
    intros Et. apply Hne. rewrite E. eexists. split; [done|]. done.
  - rewrite perform_validate. simpl.
    destruct (_access_tokens w !! tok) as [rec|] eqn:Hl.
    2: { by rewrite validate_absent. }
    destruct (decide (at_expires_at rec < utcnow_at (clock_reads w))) as [He|He].
    + destruct (validate_expired _ _ _ Hl He) as (_ & -> & _).
      destruct (decide (tok = token)) as [->|];
        [by rewrite lookup_delete_eq | by rewrite lookup_delete_ne].
    + by destruct (validate_live _ _ _ Hl He) as (_ & -> & _).
Qed.

Lemma run_token_absent token calls : ∀ w j,
  _access_tokens w !! token = None →
  (∀ r, r ∈ (run calls w).1 → ¬ mints token r) →
  calls !! j = Some (validate_call token) →
  (run calls w).1 !! j = Some (record_reply None).
Proof.
  induction calls as [|c0 cs IH]; intros w j Habs Hfresh Hj; [done|].
  rewrite run_cons_replies in *.
  destruct j as [|j]; simpl in *.
  - simplify_eq. by rewrite perform_validate, validate_absent.
  - eapply IH; [| |done].
    + apply perform_keeps_token_absent; [done|]. apply Hfresh. by left.
    + intros r Hr. apply Hfresh. by right.
Qed.

(** C7. [validate_access_token] returns [None] for a token that is not in
    the access-token store.  For a stored token whose [expires_at] is
    strictly earlier than the clock reading it removes the entry and
    returns [None], and in any run that follows (in which no exchange or
    refresh hands out the same token value again) every call with that
    token returns [None].  For a stored token that has not expired it
    returns the stored record and leaves the three stores as they were. *)
Theorem validate_access_token_spec token w :
  let r := (validate_access_token token w).1 in
  let w' := (validate_access_token token w).2 in
  (_access_tokens w !! token = None → r = None ∧ w' = w)
  ∧ (∀ record,
       _access_tokens w !! token = Some record →
       at_expires_at record < utcnow_at (clock_reads w) →
       r = None
       ∧ _access_tokens w' = delete token (_access_tokens w)
       ∧ (validate_access_token token w').1 = None
       ∧ ∀ calls j,
           (∀ x, x ∈ (run calls w').1 → ¬ mints token x) →
           calls !! j = Some (validate_call token) →
           (run calls w').1 !! j = Some (record_reply None))
  ∧ (∀ record,
       _access_tokens w !! token = Some record →
       ¬ (at_expires_at record < utcnow_at (clock_reads w)) →
       r = Some record
       ∧ _access_tokens w' = _access_tokens w
       ∧ _authorization_codes w' = _authorization_codes w
       ∧ _refresh_tokens w' = _refresh_tokens w).
Proof.
  intros r w'. subst r w'. split; [|split].
  - intros Hl. by rewrite validate_absent.
  - intros record Hl He.
    destruct (validate_expired _ _ _ Hl He) as (Hr & Hd & _).
    assert (_access_tokens (validate_access_token token w).2 !! token = None) as Habs.
    { rewrite Hd. apply lookup_delete_eq. }
    split; [done|]. split; [done|]. split.
    + by rewrite validate_absent.
    + intros calls j Hfresh Hj. by apply (run_token_absent token).
  - intros record Hl He. by apply validate_live.
Qed.

(** ** [refresh_access_token] *)

(** C8. [refresh_access_token], on a refresh token that is in the
    refresh-token store with the client_id supplied, returns a response
    that carries the very refresh token supplied (the refresh-token store
    is left as it was), the scope stored with it, [expires_in = 3600], and
    an access token that is now stored, bound to that scope and client, and
    that [validate_access_token] accepts as long as the clock has not passed
    its [expires_at].  A second call with the same refresh token succeeds
    again with the same refresh token; its access token is the next draw of
    the random source, so the two access tokens differ when the two draws
    differ, and both are then stored.  On an absent refresh token or another
    client_id it returns [None] and changes nothing. *)
Theorem refresh_access_token_spec refresh_token client_id w :
  (∀ token_data,
     _refresh_tokens w !! refresh_token = Some token_data →
     rt_client_id token_data = client_id →
     let w1 := (refresh_access_token refresh_token client_id w).2 in
     let w2 := (refresh_access_token refresh_token client_id w1).2 in
     ∃ t1 t2 record1 record2,
       (refresh_access_token refresh_token client_id w).1 = Some t1
       ∧ resp_refresh_token t1 = refresh_token
       ∧ resp_scope t1 = rt_scope token_data
       ∧ resp_expires_in t1 = 3600
       ∧ _refresh_tokens w1 = _refresh_tokens w
       ∧ _access_tokens w1 !! resp_access_token t1 = Some record1
       ∧ at_scope record1 = rt_scope token_data
       ∧ at_client_id record1 = client_id
       ∧ at_expires_at record1 = utcnow_at (S (clock_reads w)) + timedelta_seconds 3600
       ∧ (¬ (at_expires_at record1 < utcnow_at (clock_reads w1)) →
          (validate_access_token (resp_access_token t1) w1).1 = Some record1)
       ∧ (refresh_access_token refresh_token client_id w1).1 = Some t2
       ∧ resp_refresh_token t2 = refresh_token
       ∧ resp_scope t2 = rt_scope token_data
       ∧ _access_tokens w2 !! resp_access_token t2 = Some record2
       ∧ (¬ (at_expires_at record2 < utcnow_at (clock_reads w2)) →
          (validate_access_token (resp_access_token t2) w2).1 = Some record2)
       ∧ (token_urlsafe_at (rng_reads w) ≠ token_urlsafe_at (S (rng_reads w)) →
          resp_access_token t1 ≠ resp_access_token t2
          ∧ _access_tokens w2 !! resp_access_token t1 = Some record1))
  ∧ (_refresh_tokens w !! refresh_token = None
     ∨ (∃ token_data, _refresh_tokens w !! refresh_token = Some token_data
                      ∧ rt_client_id token_data ≠ client_id) →
     refresh_access_token refresh_token client_id w = (None, w)).
Proof.
  split; [|apply refresh_rejected].
  intros td Hl Hc w1 w2.
  destruct (refresh_granted _ _ _ _ Hl Hc) as (E1 & A1 & R1 & _ & G1 & K1).
  fold w1 in A1, R1, G1, K1.
  assert (_refresh_tokens w1 !! refresh_token = Some td) as Hl1 by by rewrite R1.
  destruct (refresh_granted _ _ _ _ Hl1 Hc) as (E2 & A2 & R2 & _ & G2 & K2).
  fold w2 in A2, R2, G2, K2.
  do 4 eexists. split; [exact E1|]. simpl.
  assert (_access_tokens w1 !! token_urlsafe_at (rng_reads w) = Some
            {| at_client_id := client_id; at_scope := rt_scope td;
               at_created_at := utcnow_at (clock_reads w);
               at_expires_at := utcnow_at (S (clock_reads w))
                                + timedelta_seconds 3600 |}) as L1.
  { rewrite A1. apply lookup_insert_eq. }
  assert (_access_tokens w2 !! token_urlsafe_at (rng_reads w1) = Some
            {| at_client_id := client_id; at_scope := rt_scope td;
               at_created_at := utcnow_at (clock_reads w1);
               at_expires_at := utcnow_at (S (clock_reads w1))
                                + timedelta_seconds 3600 |}) as L2.
  { rewrite A2. apply lookup_insert_eq. }
  split_and!; try done.
  all: try (intros He; eapply validate_live; done).
  simpl. rewrite G1. intros Hd. split; [done|].
  rewrite A2, G1, lookup_insert_ne; [exact L1|]. by intros E.
Qed.

(** ** [check_auth] *)

Lemma check_auth_bearer auth_token h w :
  startswith "Bearer " h = true →
  check_auth auth_token {| header_Authorization := Some h |} w
  = (match (validate_access_token (slice_from 7 h) w).1 with
     | Some _ => true
     | None => truthy auth_token && py_eq (Some (slice_from 7 h)) auth_token
     end,
     (validate_access_token (slice_from 7 h) w).2).
Proof.
  intros Hb. unfold check_auth.
  change (default "" (header_Authorization {| header_Authorization := Some h |}))
    with h.
  rewrite Hb. generalize (slice_from 7 h). intros token.
  unfold mbind, M_bind, mret, M_ret.
  destruct (validate_access_token token w) as [[record|] w1]; simpl.
  - done.
  - by destruct (truthy auth_token && py_eq (Some token) auth_token).
Qed.

Lemma check_auth_no_bearer auth_token request w :
  startswith "Bearer " (default "" (header_Authorization request)) = false →
  check_auth auth_token request w = (negb (truthy auth_token), w).
Proof.
  intros Hb. unfold check_auth. rewrite Hb.
  by destruct (truthy auth_token).
Qed.

(** C10. In [check_auth], a request whose Authorization header starts with
    ["Bearer "] and whose token is neither accepted by
    [validate_access_token] nor equal to the static token is refused,
    whether or not a static token is configured; a request whose header
    does not start with ["Bearer "], or that has no such header, is let in
    when no static token is configured.  So with no static token, a request
    with a Bearer token that does not validate is refused while the same
    request without the header is let in. *)
Theorem check_auth_invalid_bearer auth_token w :
  (∀ h,
     startswith "Bearer " h = true →
     (validate_access_token (slice_from 7 h) w).1 = None →
     auth_token ≠ Some (slice_from 7 h) →
     (check_auth auth_token {| header_Authorization := Some h |} w).1 = false)
  ∧ (truthy auth_token = false →
     ∀ request,
       startswith "Bearer " (default "" (header_Authorization request)) = false →
       check_auth auth_token request w = (true, w))
  ∧ (truthy auth_token = false →
     ∀ h,
       startswith "Bearer " h = true →
       (validate_access_token (slice_from 7 h) w).1 = None →
       (check_auth auth_token {| header_Authorization := Some h |} w).1 = false
       ∧ (check_auth auth_token {| header_Authorization := None |} w).1 = true).
Proof.
  split; [|split].
  - intros h Hb Hv Hne. rewrite check_auth_bearer by done. cbn [fst]. rewrite Hv.
    assert (py_eq (Some (slice_from 7 h)) auth_token = false) as ->
      by (apply py_eq_false; congruence).
    apply andb_false_r.
  - intros Hf request Hb. rewrite check_auth_no_bearer by done. by rewrite Hf.
  - intros Hf h Hb Hv. split.
    + rewrite check_auth_bearer by done. cbn [fst]. by rewrite Hv, Hf.
    + rewrite check_auth_no_bearer by done. cbn [fst]. by rewrite Hf.
Qed.

(** ** Further properties of the token stores *)

Lemma exchange_accepted_clock code client_id redirect_uri code_verifier w auth_code :
  _authorization_codes w !! code = Some auth_code →
  ac_client_id auth_code = client_id →
  ac_redirect_uri auth_code = redirect_uri →
  ¬ (ac_expires_at auth_code < utcnow_at (clock_reads w)) →
  pkce_verified auth_code code_verifier →
  clock_reads (exchange_code_for_tokens code client_id redirect_uri code_verifier w).2
  = S (S (S (S (clock_reads w)))).
Proof.
  intros Hl Hc Hr He Hp. unfold_ops. rewrite Hl, Hc, Hr, !py_eq_refl.
  apply pkce_rejects_false in Hp. apply Z.ltb_nlt in He.
  simpl. rewrite He, Hp. simpl. by world.
Qed.

Lemma exchange_other_codes code code' client_id redirect_uri code_verifier w :
  code' ≠ code →
  _authorization_codes
    (exchange_code_for_tokens code client_id redirect_uri code_verifier w).2 !! code'
  = _authorization_codes w !! code'.
Proof.
  intros Hne.
  pose proof (exchange_follows_path code client_id redirect_uri code_verifier w) as P.
  destruct (exchange_code_for_tokens code client_id redirect_uri code_verifier w)
    as [r w'].
  simpl in *. inversion P as [| | ? ? ? ? ? ? Hc | ? ? ? ? ? ? ? Hc| ? ? ? ? ? ? ? ? ? Hc];
    subst; try done.
  all: rewrite Hc; by rewrite ?lookup_delete_ne.
Qed.

Lemma exchange_refresh_store code client_id redirect_uri code_verifier w :
  let result := exchange_code_for_tokens code client_id redirect_uri code_verifier w in
  match result.1 with
  | Some t =>
      ∃ v, _refresh_tokens result.2 = <[resp_refresh_token t := v]> (_refresh_tokens w)
  | None => _refresh_tokens result.2 = _refresh_tokens w
  end.
Proof.
  intros result. subst result.
  pose proof (exchange_follows_path code client_id redirect_uri code_verifier w) as P.
  destruct (exchange_code_for_tokens code client_id redirect_uri code_verifier w)
    as [r w'].
  simpl in *. inversion P; subst; eauto.
Qed.

Lemma create_reads_clock client_id redirect_uri scope code_challenge method w :
  clock_reads (create_authorization_code client_id redirect_uri scope
                 code_challenge method w).2 = S (S (clock_reads w)).
Proof. unfold_ops. simpl. by world. Qed.

(** A stored code, asked for by its client and redirect URI with a verifier
    that passes its PKCE step, is redeemed unless it has expired. *)
Lemma bound_code_exchange code client_id redirect_uri code_verifier w auth_code :
  _authorization_codes w !! code = Some auth_code →
  ac_client_id auth_code = client_id →
  ac_redirect_uri auth_code = redirect_uri →
  pkce_verified auth_code code_verifier →
  (is_Some (exchange_code_for_tokens code client_id redirect_uri code_verifier w).1
   ↔ ¬ (ac_expires_at auth_code < utcnow_at (clock_reads w)))
  ∧ (∀ t, (exchange_code_for_tokens code client_id redirect_uri code_verifier w).1
          = Some t → resp_scope t = ac_scope auth_code).
Proof.
  intros Hl Hc Hr Hp.
  destruct (decide (ac_expires_at auth_code < utcnow_at (clock_reads w))) as [He|He].
  - destruct (exchange_expired _ _ _ code_verifier _ _ Hl Hc Hr He) as (-> & _).
    split; [|done]. split; [by intros [? ?] | done].
  - destruct (exchange_accepted _ _ _ _ _ _ Hl Hc Hr He Hp) as (-> & _).
    split; [|by intros t [= <-]]. split; [done | eauto].
Qed.

(** X1. A code just issued by [create_authorization_code] is redeemable by
    the client and redirect URI it was issued to, with a verifier that
    passes its PKCE step, exactly as long as the clock reading taken by the
    exchange is not past the reading taken at issuance plus ten minutes (the
    instant of expiry itself is still accepted); the tokens then carry the
    scope the code was issued with. *)
Theorem fresh_code_redeemable client_id redirect_uri scope code_challenge method
    code_verifier w :
  let created := create_authorization_code client_id redirect_uri scope
                   code_challenge method w in
  let issued :=
    {| ac_client_id := client_id; ac_redirect_uri := redirect_uri; ac_scope := scope;
       ac_code_challenge := code_challenge; ac_code_challenge_method := method;
       ac_created_at := utcnow_at (clock_reads w);
       ac_expires_at := utcnow_at (S (clock_reads w)) + timedelta_minutes 10 |} in
  let result := exchange_code_for_tokens created.1 client_id redirect_uri code_verifier
                  created.2 in
  pkce_verified issued code_verifier →
  (is_Some result.1
   ↔ utcnow_at (S (S (clock_reads w)))
     ≤ utcnow_at (S (clock_reads w)) + 600000000)
  ∧ (∀ t, result.1 = Some t → resp_scope t = scope).
Proof.
  intros created issued result Hp. subst created result.
  destruct (create_stores client_id redirect_uri scope code_challenge method w)
    as [-> Hl].
  fold issued in Hl.
  destruct (bound_code_exchange _ client_id redirect_uri code_verifier _ issued
              Hl eq_refl eq_refl Hp) as [Hiff Hscope].
  rewrite create_reads_clock in Hiff.
  change (ac_expires_at issued)
    with (utcnow_at (S (clock_reads w)) + 600000000) in Hiff.
  split; [|exact Hscope]. rewrite Hiff. lia.
Qed.

(** Where the tokens of a successful exchange are stored. *)
Lemma exchange_success_stores code client_id redirect_uri code_verifier w t :
  let w' := (exchange_code_for_tokens code client_id redirect_uri code_verifier w).2 in
  (exchange_code_for_tokens code client_id redirect_uri code_verifier w).1 = Some t →
  _access_tokens w' !! resp_access_token t
  = Some {| at_client_id := client_id; at_scope := resp_scope t;
            at_created_at := utcnow_at (S (clock_reads w));
            at_expires_at := utcnow_at (S (S (clock_reads w))) + 3600000000 |}
  ∧ _refresh_tokens w' !! resp_refresh_token t
    = Some {| rt_client_id := client_id; rt_scope := resp_scope t;
              rt_created_at := utcnow_at (S (S (S (clock_reads w)))) |}.
Proof.
  intros w' E.
  pose proof (exchange_follows_path code client_id redirect_uri code_verifier w) as P.
  fold w' in P. rewrite E in P. clearbody w'.
  inversion P as [| | | | ac t' w1 Hl Hc Hr He Hp Ht Hcodes Hacc Href]. subst t' w1.
  rewrite Hacc, Href, Ht. simpl. by rewrite !lookup_insert_eq.
Qed.

(** The code a successful exchange redeemed, and what the answer takes
    from it. *)
Lemma exchange_success_code code client_id redirect_uri code_verifier w t :
  (exchange_code_for_tokens code client_id redirect_uri code_verifier w).1 = Some t →
  ∃ auth_code,
    _authorization_codes w !! code = Some auth_code
    ∧ ac_client_id auth_code = client_id
    ∧ ac_redirect_uri auth_code = redirect_uri
    ∧ resp_scope t = ac_scope auth_code.
Proof.
  intros E.
  pose proof (exchange_follows_path code client_id redirect_uri code_verifier w) as P.
  rewrite E in P.
  inversion P as [| | | | ac t' w1 Hl Hc Hr He Hp Ht Hcodes Hacc Href]. subst t'.
  exists ac. rewrite Ht. done.
Qed.

(** X2. The tokens returned by a successful exchange are usable, and are
    bound to what the redeemed code was bound to: the answer carries the
    scope stored with the code; the access token is in the access-token
    store, bound to the client of the code (the client that asked) and to
    the scope of the code, expiring one hour after the clock reading, and
    [validate_access_token] returns that record as long as the clock is not
    past its [expires_at]; the refresh token is accepted by
    [refresh_access_token] for the same client, with the scope of the code
    and the same refresh token in the answer, and refused for any other
    client. *)
Theorem exchange_tokens_usable code client_id redirect_uri code_verifier w t :
  let w' := (exchange_code_for_tokens code client_id redirect_uri code_verifier w).2 in
  (exchange_code_for_tokens code client_id redirect_uri code_verifier w).1 = Some t →
  ∃ auth_code,
    _authorization_codes w !! code = Some auth_code
    ∧ ac_client_id auth_code = client_id
    ∧ resp_scope t = ac_scope auth_code
    ∧ (∃ record,
         _access_tokens w' !! resp_access_token t = Some record
         ∧ at_client_id record = ac_client_id auth_code
         ∧ at_scope record = ac_scope auth_code
         ∧ at_expires_at record = utcnow_at (S (S (clock_reads w))) + 3600000000
         ∧ (¬ (at_expires_at record < utcnow_at (clock_reads w')) →
            (validate_access_token (resp_access_token t) w').1 = Some record))
    ∧ (∃ t2,
         (refresh_access_token (resp_refresh_token t) client_id w').1 = Some t2
         ∧ resp_scope t2 = ac_scope auth_code
         ∧ resp_refresh_token t2 = resp_refresh_token t)
    ∧ (∀ other, other ≠ client_id →
         (refresh_access_token (resp_refresh_token t) other w').1 = None).
Proof.
  intros w' E.
  destruct (exchange_success_code code client_id redirect_uri code_verifier w t E)
    as (auth_code & Hl & Hc & _ & Hs).
  destruct (exchange_success_stores code client_id redirect_uri code_verifier w t E)
    as [Ha Hr].
  fold w' in Ha, Hr. rewrite Hs in Ha, Hr.
  exists auth_code. split; [done|]. split; [done|]. split; [done|].
  split; [|split].
  - eexists. split; [exact Ha|]. simpl. rewrite Hc. repeat split.
    intros Hv. by apply validate_live.
  - destruct (refresh_granted _ client_id w' _ Hr eq_refl) as (-> & _). eauto.
  - intros other Hne. rewrite refresh_rejected; [done|].
    right. eexists. split; [exact Hr|]. simpl. congruence.
Qed.

(** *** What a run leaves alone *)

Lemma perform_keeps_code code auth_code c w :
  _authorization_codes w !! code = Some auth_code →
  ¬ redeems code c →
  (perform c w).1 ≠ code_reply code →
  _authorization_codes (perform c w).2 !! code = Some auth_code.
Proof.
  intros Hl Hnr Hne. destruct c as [? ? ? ? ?| code0 cid ruri cv | rt cid | tok].
  - simpl in *. unfold_ops. simpl in *. world.
    rewrite lookup_insert_ne; [done | congruence].
  - rewrite perform_exchange. simpl. rewrite exchange_other_codes; [done|].
    intros ->. apply Hnr. unfold redeems. eauto.
  - rewrite perform_refresh. simpl.
    destruct (_refresh_tokens w !! rt) as [td|] eqn:Hrt.
    2: { rewrite refresh_rejected; auto. }
    destruct (decide (rt_client_id td = cid)) as [Hc|Hc].
    2: { rewrite refresh_rejected; eauto. }
    destruct (refresh_granted _ _ _ _ Hrt Hc) as (_ & _ & _ & -> & _). done.
  - rewrite perform_validate. simpl.
    destruct (_access_tokens w !! tok) as [rec|] eqn:Hat.
    2: { by rewrite validate_absent. }
    destruct (decide (at_expires_at rec < utcnow_at (clock_reads w))) as [He|He].
    + by destruct (validate_expired _ _ _ Hat He) as (_ & _ & -> & _).
    + by destruct (validate_live _ _ _ Hat He) as (_ & _ & -> & _).
Qed.

Lemma perform_keeps_refresh token token_data c w :
  _refresh_tokens w !! token = Some token_data →
  ¬ mints_refresh token c (perform c w).1 →
  _refresh_tokens (perform c w).2 !! token = Some token_data.
Proof.
  intros Hl Hnm. destruct c as [? ? ? ? ?| code cid ruri cv | rt cid | tok].
  - simpl in *. unfold_ops. simpl in *. by world.
  - rewrite perform_exchange in *. simpl in *.
    pose proof (exchange_refresh_store code cid ruri cv w) as H. simpl in H.
    destruct (exchange_code_for_tokens code cid ruri cv w).1 as [t|] eqn:E.
    + destruct H as [v ->]. rewrite lookup_insert_ne; [done|].
      intros Et. apply Hnm. unfold mints_refresh. eauto 10.
    + by rewrite H.
  - rewrite perform_refresh. simpl.
    destruct (_refresh_tokens w !! rt) as [td|] eqn:Hrt.
    2: { rewrite refresh_rejected; auto. }
    destruct (decide (rt_client_id td = cid)) as [Hc|Hc].
    2: { rewrite refresh_rejected; eauto. }
    destruct (refresh_granted _ _ _ _ Hrt Hc) as (_ & _ & -> & _). done.
  - rewrite perform_validate. simpl.
    destruct (_access_tokens w !! tok) as [rec|] eqn:Hat.
    2: { by rewrite validate_absent. }
    destruct (decide (at_expires_at rec < utcnow_at (clock_reads w))) as [He|He].
    + by destruct (validate_expired _ _ _ Hat He) as (_ & _ & _ & ->).
    + by destruct (validate_live _ _ _ Hat He) as (_ & _ & _ & ->).
Qed.

Lemma run_cons_world c cs w :
  (run (c :: cs) w).2 = (run cs (perform c w).2).2.
Proof.
  simpl. unfold mbind, M_bind, mret, M_ret.
  destruct (perform c w) as [r w1]. simpl.
  by destruct (run cs w1).
Qed.

(** X3. Other traffic does not disturb an outstanding code: after any run
    in which no call names the code in an exchange (and the random source
    does not issue the same code value again), the code is still stored
    with the record it had. *)
Theorem code_undisturbed code auth_code calls : ∀ w,
  _authorization_codes w !! code = Some auth_code →
  Forall (λ c, ¬ redeems code c) calls →
  (∀ r, r ∈ (run calls w).1 → r ≠ code_reply code) →
  _authorization_codes (run calls w).2 !! code = Some auth_code.
Proof.
  induction calls as [|c cs IH]; intros w Hl Hnr Hfresh; [done|].
  rewrite run_cons_world. rewrite run_cons_replies in Hfresh.
  apply Forall_cons in Hnr as [Hc Hcs].
  apply IH; [|done|].
  - apply perform_keeps_code; [done|done|]. apply Hfresh. by left.
  - intros r Hr. apply Hfresh. by right.
Qed.

(** X4. A refresh token is never removed and never expires: after any run
    of calls (in which no exchange hands out the same value as a new refresh
    token), it is still stored with the same client and scope, and
    [refresh_access_token] with that client still returns tokens with the
    stored scope. *)
Theorem refresh_token_persists token token_data calls : ∀ w,
  _refresh_tokens w !! token = Some token_data →
  Forall2 (λ c r, ¬ mints_refresh token c r) calls (run calls w).1 →
  _refresh_tokens (run calls w).2 !! token = Some token_data
  ∧ ∃ t, (refresh_access_token token (rt_client_id token_data) (run calls w).2).1
         = Some t
         ∧ resp_scope t = rt_scope token_data
         ∧ resp_refresh_token t = token.
Proof.
  assert (∀ w, _refresh_tokens w !! token = Some token_data →
               ∃ t, (refresh_access_token token (rt_client_id token_data) w).1 = Some t
                    ∧ resp_scope t = rt_scope token_data
                    ∧ resp_refresh_token t = token) as Hgrant.
  { intros w Hl. destruct (refresh_granted _ _ _ _ Hl eq_refl) as (-> & _). eauto. }
  induction calls as [|c cs IH]; intros w Hl Hnm; [by split; [|apply Hgrant]|].
  rewrite run_cons_world. rewrite run_cons_replies in Hnm.
  apply Forall2_cons in Hnm as [Hc Hcs].
  apply IH; [|done]. by apply perform_keeps_refresh.
Qed.

(** *** Client and scope bindings *)

Lemma perform_bound P c w :
  bound_within P w →
  call_within P c →
  bound_within P (perform c w).2 ∧ answer_within P c (perform c w).1.
Proof.
  intros (Hcodes & Hacc & Href) Hcall.
  destruct c as [cid ruri sc ch m| code cid ruri cv | rt cid | tok].
  - simpl in *. unfold_ops. simpl. unfold bound_within. world.
    split; [|done]. split; [|done]. by apply map_Forall_insert_2.
  - rewrite perform_exchange. simpl.
    pose proof (exchange_follows_path code cid ruri cv w) as Hpath.
    destruct (exchange_code_for_tokens code cid ruri cv w) as [r w']. simpl in *.
    unfold bound_within.
    inversion Hpath as [| | ac ? Hl ? ? ? Ec Ea Er | ac ? Hl ? ? ? ? Ec Ea Er
                        | ac t ? Hl Hc ? ? ? Ht Ec Ea Er]; subst; try done.
    + rewrite Ec, Ea, Er. split; [|done]. split; [|done]. by apply map_Forall_delete.
    + by rewrite Ec, Ea, Er.
    + pose proof (map_Forall_lookup_1 _ _ _ _ Hcodes Hl) as Hac. simpl in Hac.
      rewrite Ec, Ea, Er. simpl. split; [|done]. split; [|split].
      * by apply map_Forall_delete.
      * by apply map_Forall_insert_2.
      * by apply map_Forall_insert_2.
  - rewrite perform_refresh. simpl.
    destruct (_refresh_tokens w !! rt) as [td|] eqn:Hrt.
    2: { by rewrite refresh_rejected by auto. }
    destruct (decide (rt_client_id td = cid)) as [Hc|Hc].
    2: { by rewrite refresh_rejected by eauto. }
    destruct (refresh_granted _ _ _ _ Hrt Hc) as (-> & Ea & Er & Ec & _).
    pose proof (map_Forall_lookup_1 _ _ _ _ Href Hrt) as Htd. simpl in Htd.
    unfold bound_within. rewrite Ea, Er, Ec. simpl. subst cid.
    split; [|done]. split; [done|]. split; [|done]. by apply map_Forall_insert_2.
  - rewrite perform_validate. simpl.
    destruct (_access_tokens w !! tok) as [rec|] eqn:Hat.
    2: { by rewrite validate_absent. }
    destruct (decide (at_expires_at rec < utcnow_at (clock_reads w))) as [He|He].
    + destruct (validate_expired _ _ _ Hat He) as (-> & Ea & Ec & Er).
      unfold bound_within. rewrite Ea, Ec, Er.
      split; [|done]. split; [done|]. split; [|done]. by apply map_Forall_delete.
    + destruct (validate_live _ _ _ Hat He) as (-> & Ea & Ec & Er).
      unfold bound_within. rewrite Ea, Ec, Er. split; [done|].
      apply (map_Forall_lookup_1 _ _ _ _ Hacc Hat).
Qed.

(** X5. No token ever binds a client to a scope that was not authorized:
    if every record in the three stores binds a client and scope allowed by
    [P], and every authorization made during a run is for a client and scope
    allowed by [P], then after the run every record still is, every token
    answer carried a scope allowed for the client that asked, and every
    validated record binds an allowed client and scope. *)
Theorem bindings_preserved P calls : ∀ w,
  bound_within P w →
  Forall (call_within P) calls →
  bound_within P (run calls w).2
  ∧ Forall2 (answer_within P) calls (run calls w).1.
Proof.
  induction calls as [|c cs IH]; intros w Hw Hcalls.
  { split; [done|]. constructor. }
  apply Forall_cons in Hcalls as [Hc Hcs].
  destruct (perform_bound P c w Hw Hc) as [Hw1 Hans].
  rewrite run_cons_world, run_cons_replies.
  destruct (IH _ Hw1 Hcs) as [Hw2 Hrest].
  split; [done|]. by constructor.
Qed.

(** *** The transport gate *)

Lemma bearer_header token :
  startswith "Bearer " ("Bearer " +:+ token) = true
  ∧ slice_from 7 ("Bearer " +:+ token) = token.
Proof.
  split; [|reflexivity].
  unfold startswith. change ("Bearer " +:+ token) with
    (String "B" (String "e" (String "a" (String "r" (String "e" (String "r"
      (String " " token))))))).
  cbn. by destruct token.
Qed.

(** X6. With a non-empty static token configured, a request that presents
    it as [Bearer] credential is let in whatever the token stores hold, and
    a request whose header does not start with ["Bearer "] (no header, a
    lower-case scheme, another scheme) is refused with the 401 answer and
    changes nothing. *)
Theorem static_token_gate static w :
  static ≠ "" →
  (check_auth (Some static)
     {| header_Authorization := Some ("Bearer " +:+ static) |} w).1 = true
  ∧ (∀ request,
       startswith "Bearer " (default "" (header_Authorization request)) = false →
       transport_gate utcnow_at (Some static) request w
       = (Some ("Unauthorized", 401), w)).
Proof.
  intros Hne. assert (truthy (Some static) = true) as Ht.
  { simpl. by apply negb_true_iff, String.eqb_neq. }
  split.
  - destruct (bearer_header static) as [Hb Hs].
    rewrite check_auth_bearer by done. cbn [fst]. rewrite Hs, Ht, py_eq_refl.
    by destruct (validate_access_token static w).1.
  - intros request Hb. unfold transport_gate, mbind, M_bind, mret, M_ret.
    rewrite check_auth_no_bearer by done. by rewrite Ht.
Qed.

(** X7. The access token of a successful exchange opens the gate: presented
    as [Bearer] credential right after the exchange, it is accepted by
    [check_auth], whatever static token is or is not configured, provided
    the clock reading is not past the hour the token lives. *)
Theorem issued_token_opens_gate code client_id redirect_uri code_verifier w t auth_token :
  let w' := (exchange_code_for_tokens code client_id redirect_uri code_verifier w).2 in
  (exchange_code_for_tokens code client_id redirect_uri code_verifier w).1 = Some t →
  utcnow_at (clock_reads w') ≤ utcnow_at (S (S (clock_reads w))) + 3600000000 →
  (check_auth auth_token
     {| header_Authorization := Some ("Bearer " +:+ resp_access_token t) |} w').1 = true
  ∧ transport_gate utcnow_at auth_token
      {| header_Authorization := Some ("Bearer " +:+ resp_access_token t) |} w'
    = (None, (validate_access_token (resp_access_token t) w').2).
Proof.
  intros w' E Hclock.
  destruct (exchange_success_stores code client_id redirect_uri code_verifier w t E)
    as [Hl _].
  fold w' in Hl.
  destruct (validate_live _ _ _ Hl) as (Hv & _); [simpl; lia|].
  destruct (bearer_header (resp_access_token t)) as [Hb Hs].
  assert (check_auth auth_token
            {| header_Authorization := Some ("Bearer " +:+ resp_access_token t) |} w'
          = (true, (validate_access_token (resp_access_token t) w').2)) as Hca.
  { rewrite check_auth_bearer by done. rewrite Hs. cbn [fst]. by rewrite Hv. }
  split; [by rewrite Hca|].
  unfold transport_gate, mbind, M_bind, mret, M_ret. by rewrite Hca.
Qed.

(** X8. A [Bearer] token that is stored but expired, and is not the static
    token, is refused with the 401 answer; the refusal removes it from the
    access-token store and leaves the code and refresh-token stores as they
    were, and the same request made again is refused again. *)
Theorem expired_token_refused auth_token token record w :
  let request := {| header_Authorization := Some ("Bearer " +:+ token) |} in
  let w' := (transport_gate utcnow_at auth_token request w).2 in
  _access_tokens w !! token = Some record →
  at_expires_at record < utcnow_at (clock_reads w) →
  auth_token ≠ Some token →
  (transport_gate utcnow_at auth_token request w).1 = Some ("Unauthorized", 401)
  ∧ _access_tokens w' = delete token (_access_tokens w)
  ∧ _authorization_codes w' = _authorization_codes w
  ∧ _refresh_tokens w' = _refresh_tokens w
  ∧ (transport_gate utcnow_at auth_token request w').1 = Some ("Unauthorized", 401).
Proof.
  intros request w' Hl He Hne. subst request w'.
  destruct (bearer_header token) as [Hb Hs].
  assert (py_eq (Some token) auth_token = false) as Hpe
    by (apply py_eq_false; congruence).
  destruct (validate_expired _ _ _ Hl He) as (Hv & Ea & Ec & Er).
  assert (∀ w0, (validate_access_token token w0).1 = None →
            transport_gate utcnow_at auth_token
              {| header_Authorization := Some ("Bearer " +:+ token) |} w0
            = (Some ("Unauthorized", 401), (validate_access_token token w0).2)) as Hgate.
  { intros w0 Hv0. unfold transport_gate, mbind, M_bind, mret, M_ret.
    rewrite check_auth_bearer by done. rewrite Hs. cbn [fst]. rewrite Hv0, Hpe.
    by rewrite andb_false_r. }
  rewrite (Hgate w Hv). cbn [fst snd]. repeat split; try done.
  rewrite Hgate; [done|]. rewrite validate_absent; [done|].
  rewrite Ea. apply lookup_delete_eq.
Qed.

(** ** The authorization and token endpoints *)

Lemma oauth_authorize_refused query_params w :
  query_params !! "response_type" ≠ Some "code" →
  oauth_authorize utcnow_at token_urlsafe_at query_params w
  = (JSONResponse "unsupported_response_type" 400, w).
Proof.
  intros Hrt. unfold oauth_authorize.
  by rewrite (proj2 (py_eq_false _ _) Hrt).
Qed.

Lemma oauth_authorize_granted query_params w :
  query_params !! "response_type" = Some "code" →
  let created :=
    create_authorization_code (query_params !! "client_id")
      (query_params !! "redirect_uri")
      (Some (default "mcp:tools mcp:resources" (query_params !! "scope")))
      (query_params !! "code_challenge")
      (Some (default "plain" (query_params !! "code_challenge_method"))) w in
  let state := default "" (query_params !! "state") in
  oauth_authorize utcnow_at token_urlsafe_at query_params w
  = (RedirectResponse
       (if negb (String.eqb state "")
        then (fmt (query_params !! "redirect_uri") +:+ "?code=" +:+ created.1)
             +:+ "&state=" +:+ state
        else fmt (query_params !! "redirect_uri") +:+ "?code=" +:+ created.1) 302,
     created.2).
Proof.
  intros Hrt created state. subst created state.
  unfold oauth_authorize. rewrite Hrt, py_eq_refl. cbn [negb].
  unfold mbind, M_bind, mret, M_ret.
  destruct (create_authorization_code _ _ _ _ _ w) as [code w1]. cbn [fst snd].
  by destruct (negb (default "" (query_params !! "state") =? ""))%string.
Qed.

(** X9. [oauth_authorize] answers 400 [unsupported_response_type] and
    changes nothing unless [response_type] is exactly ["code"] (a missing
    parameter included).  Otherwise it answers a 302 redirect to
    [redirect_uri?code=<code>], followed by [&state=<state>] only when a
    non-empty state was given; and when the request carried no
    [code_challenge], the code is redeemable by the [client_id] and
    [redirect_uri] of the request, with or without a verifier, as long as
    the clock reading of the exchange is not past issuance plus ten
    minutes. *)
Theorem authorize_then_redeem query_params w :
  let response := (oauth_authorize utcnow_at token_urlsafe_at query_params w).1 in
  let w' := (oauth_authorize utcnow_at token_urlsafe_at query_params w).2 in
  let code := token_urlsafe_at (rng_reads w) in
  let state := default "" (query_params !! "state") in
  (query_params !! "response_type" ≠ Some "code" →
   response = JSONResponse "unsupported_response_type" 400 ∧ w' = w)
  ∧ (query_params !! "response_type" = Some "code" →
     response
     = RedirectResponse
         (if negb (String.eqb state "")
          then (fmt (query_params !! "redirect_uri") +:+ "?code=" +:+ code)
               +:+ "&state=" +:+ state
          else fmt (query_params !! "redirect_uri") +:+ "?code=" +:+ code) 302
     ∧ (query_params !! "code_challenge" = None →
        ∀ code_verifier,
          is_Some (exchange_code_for_tokens code (query_params !! "client_id")
                     (query_params !! "redirect_uri") code_verifier w').1
          ↔ utcnow_at (S (S (clock_reads w)))
            ≤ utcnow_at (S (clock_reads w)) + 600000000)).
Proof.
  intros response w' code state. subst response w' code state. split.
  - intros Hrt. by rewrite oauth_authorize_refused.
  - intros Hrt. rewrite (oauth_authorize_granted _ _ Hrt). cbn [fst snd].
    destruct (create_stores (query_params !! "client_id")
                (query_params !! "redirect_uri")
                (Some (default "mcp:tools mcp:resources" (query_params !! "scope")))
                (query_params !! "code_challenge")
                (Some (default "plain" (query_params !! "code_challenge_method"))) w)
      as [Ecode Hst].
    rewrite Ecode. split; [done|]. intros Hch cv.
    destruct (bound_code_exchange (token_urlsafe_at (rng_reads w))
                (query_params !! "client_id") (query_params !! "redirect_uri") cv
                _ _ Hst eq_refl eq_refl) as [Hiff _].
    { left. simpl. by rewrite Hch. }
    rewrite create_reads_clock in Hiff. rewrite Hiff.
    change (timedelta_minutes 10) with 600000000. simpl. lia.
Qed.

Lemma split_once_None s : split_once s = None ↔ has_colon s = false.
Proof.
  induction s as [|c r IH]; simpl; [done|].
  destruct (Ascii.eqb c ":"); simpl; [done|].
  destruct (split_once r) as [[a b]|]; [|tauto].
  split; [done|]. intros H. apply IH in H. done.
Qed.

(** [split_once] cuts at the first colon, and only there. *)
Lemma split_once_Some s a b :
  split_once s = Some (a, b) ↔ s = a +:+ String ":" b ∧ has_colon a = false.
Proof.
  revert a. induction s as [|c r IH]; intros a; simpl.
  - split; [done|]. intros [H _]. by destruct a.
  - destruct (Ascii.eqb_spec c ":") as [->|Hc].
    + split.
      * intros [= <- <-]. done.
      * intros [H Ha]. destruct a as [|c' a'].
        -- injection H as ->. done.
        -- injection H as <- _. by simpl in Ha.
    + destruct (split_once r) as [[a' b']|] eqn:E.
      * split.
        -- intros [= <- <-]. destruct (proj1 (IH a') eq_refl) as [-> Ha].
           split; [done|]. simpl. apply Ascii.eqb_neq in Hc. by rewrite Hc.
        -- intros [H Ha]. destruct a as [|c' a''].
           ++ injection H as -> _. done.
           ++ injection H as <- ->. simpl in Ha.
              apply orb_false_iff in Ha as [_ Ha].
              assert (Some (a', b') = Some (a'', b)) as [= -> ->]; [|done].
              by apply IH.
      * split; [done|]. intros [H Ha]. destruct a as [|c' a''].
        -- injection H as -> _. done.
        -- injection H as <- ->. simpl in Ha.
           apply orb_false_iff in Ha as [_ Ha].
           assert (None = Some (a'', b)); [|done]. by apply IH.
Qed.

Section FrontEndProperties.

Variable uuid4_at : nat → string.
Variable timestamp : Z → Z.
Variable b64decode_text : string → option string.

Local Abbreviation token_credentials := (token_credentials b64decode_text).
Local Abbreviation oauth_token :=
  (oauth_token utcnow_at token_urlsafe_at b64decode_text).
Local Abbreviation register_client :=
  (register_client utcnow_at token_urlsafe_at uuid4_at timestamp).
Local Abbreviation oauth_register :=
  (oauth_register utcnow_at token_urlsafe_at uuid4_at timestamp).

Lemma token_credentials_basic request :
  startswith "Basic " (default "" (header_authorization request)) = true →
  token_credentials request
  = match b64decode_text (slice_from 6 (default "" (header_authorization request))) with
    | Some decoded =>
        match split_once decoded with
        | Some (client_id, client_secret) => Some (Some client_id, Some client_secret)
        | None => None
        end
    | None => None
    end.
Proof. intros Hb. unfold_front. by rewrite Hb. Qed.

Lemma token_credentials_body request :
  startswith "Basic " (default "" (header_authorization request)) = false →
  token_credentials request
  = Some (body request !! "client_id", body request !! "client_secret").
Proof. intros Hb. unfold_front. by rewrite Hb. Qed.

Lemma oauth_token_grant request w client_id client_secret :
  token_credentials request = Some (client_id, client_secret) →
  oauth_token request w
  = if py_eq (body request !! "grant_type") (Some "authorization_code") then
      (grant_answer
         (exchange_code_for_tokens_from utcnow_at token_urlsafe_at
            (body request !! "code") client_id (body request !! "redirect_uri")
            (body request !! "code_verifier") w).1,
       (exchange_code_for_tokens_from utcnow_at token_urlsafe_at
          (body request !! "code") client_id (body request !! "redirect_uri")
          (body request !! "code_verifier") w).2)
    else if py_eq (body request !! "grant_type") (Some "refresh_token") then
      (grant_answer
         (refresh_access_token_from utcnow_at token_urlsafe_at
            (body request !! "refresh_token") client_id w).1,
       (refresh_access_token_from utcnow_at token_urlsafe_at
          (body request !! "refresh_token") client_id w).2)
    else (ErrorJSON "unsupported_grant_type" 400, w).
Proof.
  intros Hc. unfold oauth_token. rewrite Hc.
  destruct (py_eq (body request !! "grant_type") (Some "authorization_code")).
  - unfold mbind, M_bind, mret, M_ret.
    destruct (exchange_code_for_tokens_from _ _ _ _ _ _ w) as [[t|] w1]; done.
  - destruct (py_eq (body request !! "grant_type") (Some "refresh_token")); [|done].
    unfold mbind, M_bind, mret, M_ret.
    destruct (refresh_access_token_from _ _ _ _ w) as [[t|] w1]; done.
Qed.

Lemma oauth_token_no_credentials request w :
  token_credentials request = None →
  oauth_token request w = (ErrorJSON "server_error" 500, w).
Proof. intros Hc. unfold oauth_token. by rewrite Hc. Qed.

(** X10. On a request whose body is a dict of strings (form fields, or a
    JSON object with string members only), the token endpoint answers 500
    [server_error] when a [Basic] header cannot be decoded or decodes to
    text without a colon, whatever the grant; 400 [unsupported_grant_type]
    when the credentials are read and [grant_type] is neither of the two
    grants (missing included); and 400 [invalid_grant] for an
    [authorization_code] request whose body has no [code] or a
    [refresh_token] request whose body has no [refresh_token].  None of
    these answers changes the stores. *)
Theorem token_endpoint_errors request w :
  let h := default "" (header_authorization request) in
  (startswith "Basic " h = true →
   (b64decode_text (slice_from 6 h) = None
    ∨ ∃ decoded, b64decode_text (slice_from 6 h) = Some decoded
                 ∧ has_colon decoded = false) →
   oauth_token request w = (ErrorJSON "server_error" 500, w))
  ∧ (is_Some (token_credentials request) →
     body request !! "grant_type" ≠ Some "authorization_code" →
     body request !! "grant_type" ≠ Some "refresh_token" →
     oauth_token request w = (ErrorJSON "unsupported_grant_type" 400, w))
  ∧ (is_Some (token_credentials request) →
     (body request !! "grant_type" = Some "authorization_code"
      ∧ body request !! "code" = None)
     ∨ (body request !! "grant_type" = Some "refresh_token"
        ∧ body request !! "refresh_token" = None) →
     oauth_token request w = (ErrorJSON "invalid_grant" 400, w)).
Proof.
  intros h. subst h. split; [|split].
  - intros Hb Hbad. apply oauth_token_no_credentials.
    rewrite token_credentials_basic by done.
    destruct Hbad as [-> | (decoded & -> & Hnc)]; [done|].
    apply split_once_None in Hnc. by rewrite Hnc.
  - intros [[cid sec] Hc] Hg1 Hg2. rewrite (oauth_token_grant _ _ _ _ Hc).
    by rewrite (proj2 (py_eq_false _ _) Hg1), (proj2 (py_eq_false _ _) Hg2).
  - intros [[cid sec] Hc] [[Hg Hm] | [Hg Hm]]; rewrite (oauth_token_grant _ _ _ _ Hc).
    + by rewrite Hg, Hm, py_eq_refl.
    + rewrite Hg, Hm, py_eq_refl.
      by rewrite (proj2 (py_eq_false (Some "refresh_token")
                           (Some "authorization_code")) ltac:(discriminate)).
Qed.

(** X11. The token endpoint never checks the client secret: the answer and
    the stores after it are the same whatever [client_secret] the body
    carries, and, with [Basic] credentials, whatever follows the first colon
    of the decoded header. *)
Theorem token_endpoint_ignores_secret fields header secret w :
  oauth_token {| body := <["client_secret" := secret]> fields;
                 header_authorization := header |} w
  = oauth_token {| body := delete "client_secret" fields;
                   header_authorization := header |} w
  ∧ (∀ header' client_id secret1 secret2,
       startswith "Basic " (default "" header) = true →
       startswith "Basic " (default "" header') = true →
       has_colon client_id = false →
       b64decode_text (slice_from 6 (default "" header))
       = Some (client_id +:+ String ":" secret1) →
       b64decode_text (slice_from 6 (default "" header'))
       = Some (client_id +:+ String ":" secret2) →
       oauth_token {| body := fields; header_authorization := header |} w
       = oauth_token {| body := fields; header_authorization := header' |} w).
Proof.
  split.
  - set (r1 := {| body := <["client_secret" := secret]> fields;
                  header_authorization := header |}).
    set (r2 := {| body := delete "client_secret" fields;
                  header_authorization := header |}).
    assert (∀ k, k ≠ "client_secret" → body r1 !! k = body r2 !! k) as Hk.
    { intros k Hne. simpl. by rewrite lookup_insert_ne, lookup_delete_ne. }
    assert (fst <$> token_credentials r1 = fst <$> token_credentials r2) as Hc.
    { destruct (startswith "Basic " (default "" header)) eqn:Hb.
      - rewrite !token_credentials_basic by done. done.
      - rewrite !token_credentials_body by done. simpl.
        by rewrite lookup_insert_ne, lookup_delete_ne. }
    destruct (token_credentials r1) as [[c1 s1]|] eqn:E1;
      destruct (token_credentials r2) as [[c2 s2]|] eqn:E2; simplify_eq/=.
    + rewrite (oauth_token_grant _ _ _ _ E1), (oauth_token_grant _ _ _ _ E2).
      by rewrite !Hk.
    + by rewrite !oauth_token_no_credentials.
  - intros header' cid s1 s2 Hb Hb' Hnc Hd Hd'.
    assert (∀ s0, split_once (cid +:+ String ":" s0) = Some (cid, s0)) as Hsplit.
    { intros s0. by apply split_once_Some. }
    rewrite (oauth_token_grant {| body := fields; header_authorization := header |}
               w (Some cid) (Some s1)).
    2: { rewrite token_credentials_basic by done.
         cbn [header_authorization]. by rewrite Hd, Hsplit. }
    rewrite (oauth_token_grant {| body := fields; header_authorization := header' |}
               w (Some cid) (Some s2)).
    2: { rewrite token_credentials_basic by done.
         cbn [header_authorization]. by rewrite Hd', Hsplit. }
    done.
Qed.

(** X12. A code redeemed through the token endpoint cannot be replayed
    there: once an [authorization_code] request was answered with tokens,
    the same request is answered 400 [invalid_grant], and no request for the
    same code is answered with tokens. *)
Theorem token_endpoint_replay request w t :
  body request !! "grant_type" = Some "authorization_code" →
  (oauth_token request w).1 = TokensJSON t →
  oauth_token request (oauth_token request w).2
  = (ErrorJSON "invalid_grant" 400, (oauth_token request w).2)
  ∧ ∀ request' t',
      body request' !! "grant_type" = Some "authorization_code" →
      body request' !! "code" = body request !! "code" →
      (oauth_token request' (oauth_token request w).2).1 ≠ TokensJSON t'.
Proof.
  intros Hg Ht.
  destruct (token_credentials request) as [[cid sec]|] eqn:Hc.
  2: { rewrite oauth_token_no_credentials in Ht by done. done. }
  rewrite (oauth_token_grant request w _ _ Hc), Hg, py_eq_refl in Ht |- *.
  cbn [fst snd] in *.
  destruct (body request !! "code") as [code|] eqn:Hcode; [|done].
  cbn [exchange_code_for_tokens_from] in *.
  destruct (exchange_code_for_tokens code cid (body request !! "redirect_uri")
              (body request !! "code_verifier") w) as [[t0|] w'] eqn:E; [|done].
  cbn [fst snd] in *.
  assert (_authorization_codes w' !! code = None) as Habs.
  { rewrite (exchange_success_removes _ _ _ _ _ _ _ E). apply lookup_delete_eq. }
  split.
  - rewrite (oauth_token_grant _ _ _ _ Hc), Hg, py_eq_refl, Hcode.
    cbn [exchange_code_for_tokens_from]. by rewrite exchange_absent.
  - intros request' t' Hg' Hcode'.
    destruct (token_credentials request') as [[cid' sec']|] eqn:Hc'.
    2: { by rewrite oauth_token_no_credentials. }
    rewrite (oauth_token_grant _ _ _ _ Hc'), Hg', py_eq_refl, Hcode'.
    cbn [exchange_code_for_tokens_from]. by rewrite exchange_absent.
Qed.

(** X13. Credentials in a [Basic] header replace the [client_id] of the
    body: when the header decodes to [client_id:secret], the answer is the
    one the same body would get with that [client_id] and no header. *)
Theorem basic_header_overrides_body fields header client_id secret w :
  startswith "Basic " header = true →
  b64decode_text (slice_from 6 header) = Some (client_id +:+ String ":" secret) →
  has_colon client_id = false →
  oauth_token {| body := fields; header_authorization := Some header |} w
  = oauth_token {| body := <["client_id" := client_id]> fields;
                   header_authorization := None |} w.
Proof.
  intros Hb Hd Hnc.
  assert (split_once (client_id +:+ String ":" secret) = Some (client_id, secret))
    as Hsplit by by apply split_once_Some.
  rewrite (oauth_token_grant {| body := fields; header_authorization := Some header |}
             w (Some client_id) (Some secret)).
  2: { rewrite token_credentials_basic by done.
       change (default "" (header_authorization
                 {| body := fields; header_authorization := Some header |}))
         with header.
       by rewrite Hd, Hsplit. }
  rewrite (oauth_token_grant {| body := <["client_id" := client_id]> fields;
                                header_authorization := None |}
             w (Some client_id) (<["client_id" := client_id]> fields !! "client_secret")).
  2: { rewrite token_credentials_body by done. simpl. by rewrite lookup_insert_eq. }
  simpl. by rewrite !lookup_insert_ne.
Qed.


(** X14. [register_client] registers the client under a fresh [uuid4]
    identifier with a fresh random secret that never expires, whatever
    [client_id] or [client_secret] the metadata may carry; [get_client] on
    that identifier then returns the very record that was returned.  Each of
    the six metadata fields ([redirect_uris], [token_endpoint_auth_method],
    [grant_types], [response_types], [client_name], [scope]) is the value
    the metadata gives it when the field is present, a JSON [null]
    included, and its default only when the field is absent.  The clients
    registered before under other identifiers and the three token stores
    are left as they were. *)
Theorem register_client_round_trip client_metadata s :
  let result := register_client client_metadata s in
  let client_data := result.1 in
  (get_client (cd_client_id client_data) result.2).1 = Some client_data
  ∧ cd_client_id client_data = uuid4_at (uuid_reads s)
  ∧ cd_client_secret client_data = token_urlsafe_at (rng_reads (oauth s))
  ∧ cd_client_id_issued_at client_data
    = timestamp (utcnow_at (clock_reads (oauth s)))
  ∧ cd_client_secret_expires_at client_data = 0
  ∧ (∀ v, client_metadata !! "redirect_uris" = Some v →
          cd_redirect_uris client_data = v)
  ∧ (∀ v, client_metadata !! "token_endpoint_auth_method" = Some v →
          cd_token_endpoint_auth_method client_data = v)
  ∧ (∀ v, client_metadata !! "grant_types" = Some v → cd_grant_types client_data = v)
  ∧ (∀ v, client_metadata !! "response_types" = Some v →
          cd_response_types client_data = v)
  ∧ (∀ v, client_metadata !! "client_name" = Some v → cd_client_name client_data = v)
  ∧ (∀ v, client_metadata !! "scope" = Some v → cd_scope client_data = v)
  ∧ (client_metadata !! "redirect_uris" = None →
     cd_redirect_uris client_data = JArr [])
  ∧ (client_metadata !! "token_endpoint_auth_method" = None →
     cd_token_endpoint_auth_method client_data = JStr "client_secret_basic")
  ∧ (client_metadata !! "grant_types" = None →
     cd_grant_types client_data
     = JArr [JStr "authorization_code"; JStr "refresh_token"])
  ∧ (client_metadata !! "response_types" = None →
     cd_response_types client_data = JArr [JStr "code"])
  ∧ (client_metadata !! "client_name" = None →
     cd_client_name client_data = JStr "Unknown Client")
  ∧ (client_metadata !! "scope" = None →
     cd_scope client_data = JStr "mcp:tools mcp:resources")
  ∧ (∀ other, other ≠ cd_client_id client_data →
       _registered_clients result.2 !! other = _registered_clients s !! other)
  ∧ _authorization_codes (oauth result.2) = _authorization_codes (oauth s)
  ∧ _access_tokens (oauth result.2) = _access_tokens (oauth s)
  ∧ _refresh_tokens (oauth result.2) = _refresh_tokens (oauth s).
Proof.
  intros result client_data. subst result client_data.
  unfold_front. cbn [fst snd oauth _registered_clients uuid_reads
                     cd_client_id cd_client_secret cd_client_id_issued_at
                     cd_client_secret_expires_at
                     cd_redirect_uris cd_token_endpoint_auth_method cd_grant_types
                     cd_response_types cd_client_name cd_scope].
  world. split_and!; try done.
  - apply lookup_insert_eq.
  - by intros v ->.
  - by intros v ->.
  - by intros v ->.
  - by intros v ->.
  - by intros v ->.
  - by intros v ->.
  - by intros ->.
  - by intros ->.
  - by intros ->.
  - by intros ->.
  - by intros ->.
  - by intros ->.
  - intros other Hne. by rewrite lookup_insert_ne.
Qed.


End FrontEndProperties.


(** X18. A failed PKCE attempt does not burn the code: after an exchange
    with the bound client and redirect URI was refused for its verifier, the
    code is still stored, and an exchange with a verifier that passes the
    PKCE step returns tokens, provided the code has not expired at the
    clock reading that exchange takes. *)
Theorem failed_pkce_keeps_code code client_id redirect_uri bad good w auth_code :
  let w' := (exchange_code_for_tokens code client_id redirect_uri bad w).2 in
  _authorization_codes w !! code = Some auth_code →
  ac_client_id auth_code = client_id →
  ac_redirect_uri auth_code = redirect_uri →
  ¬ (ac_expires_at auth_code < utcnow_at (clock_reads w)) →
  ¬ pkce_verified auth_code bad →
  pkce_verified auth_code good →
  ¬ (ac_expires_at auth_code < utcnow_at (clock_reads w')) →
  (exchange_code_for_tokens code client_id redirect_uri bad w).1 = None
  ∧ _authorization_codes w' !! code = Some auth_code
  ∧ is_Some (exchange_code_for_tokens code client_id redirect_uri good w').1.
Proof.
  intros w' Hl Hc Hr He Hbad Hgood He'.
  destruct (exchange_pkce_rejected _ _ _ _ _ _ Hl Hc Hr He Hbad) as (Hnone & Hcodes & _).
  fold w' in Hcodes.
  assert (_authorization_codes w' !! code = Some auth_code) as Hl'
    by by rewrite Hcodes.
  split; [done|]. split; [done|].
  destruct (exchange_accepted _ _ _ _ _ _ Hl' Hc Hr He' Hgood) as (-> & _). eauto.
Qed.

End Properties.

(** ** Concrete runs *)

(** The S256 transform on the verifier of the specification's example, and
    on the empty verifier. *)
Example s256_abc123 : s256 "abc123" = "bKE9UspwyIPg8LsQHkJaiehiTeUdstI5JZOvaoQRgJA".
Proof. vm_compute. reflexivity. Qed.

Example s256_empty : s256 "" = "47DEQpj8HBSa-_TImW-5JCeuQeRkm5NMpJWZG3hSuFU".
Proof. vm_compute. reflexivity. Qed.

Example sha256_abc :
  SHA256.digest (encode "abc")
  = [0xba; 0x78; 0x16; 0xbf; 0x8f; 0x01; 0xcf; 0xea; 0x41; 0x41; 0x40; 0xde;
     0x5d; 0xae; 0x22; 0x23; 0xb0; 0x03; 0x61; 0xa3; 0x96; 0x17; 0x7a; 0x9c;
     0xb4; 0x10; 0xff; 0x61; 0xf2; 0x00; 0x15; 0xad].
Proof. vm_compute. reflexivity. Qed.

(** The end-to-end scenario: authorize with an S256 challenge, a wrong
    verifier, the right one, a replay, then validation and a refresh. *)
Example end_to_end :
  (run sample_clock sample_token
     [create_call (Some "client-1") (Some "https://app/cb") (Some "mcp:tools")
        (Some (s256 "verifier1")) (Some "S256");
      exchange_call "tok" (Some "client-1") (Some "https://app/cb") (Some "verifier2");
      exchange_call "tok" (Some "client-1") (Some "https://app/cb") (Some "verifier1");
      exchange_call "tok" (Some "client-1") (Some "https://app/cb") (Some "verifier1");
      validate_call "xtok";
      refresh_call "xxtok" (Some "client-1");
      validate_call "xxxtok"] empty_world).1
  = [code_reply "tok";
     tokens_reply None;
     tokens_reply (Some {| resp_access_token := "xtok"; resp_token_type := "Bearer";
                           resp_expires_in := 3600; resp_refresh_token := "xxtok";
                           resp_scope := Some "mcp:tools" |});
     tokens_reply None;
     record_reply (Some {| at_client_id := Some "client-1";
                           at_scope := Some "mcp:tools";
                           at_created_at := 4000000;
                           at_expires_at := 3605000000 |});
     tokens_reply (Some {| resp_access_token := "xxxtok"; resp_token_type := "Bearer";
                           resp_expires_in := 3600; resp_refresh_token := "xxtok";
                           resp_scope := Some "mcp:tools" |});
     record_reply (Some {| at_client_id := Some "client-1";
                           at_scope := Some "mcp:tools";
                           at_created_at := 8000000;
                           at_expires_at := 3609000000 |})].
Proof. vm_compute. reflexivity. Qed.

(** ** The theorems at concrete inputs *)

Lemma code_single_use_witness :
  let created :=
    create_authorization_code sample_clock sample_token (Some "client-1")
      (Some "https://app/cb") (Some "mcp:tools") (Some (s256 "abc123")) (Some "S256")
      empty_world in
  (∀ r, r ∈ (run sample_clock sample_token replay_calls created.2).1 →
        r ≠ code_reply created.1)
  ∧ (run sample_clock sample_token replay_calls created.2).1 !! 2%nat
    = Some (tokens_reply None).
Proof.
  intros created.
  assert (∀ r, r ∈ (run sample_clock sample_token replay_calls created.2).1 →
               r ≠ code_reply created.1) as Hfresh.
  { intros r Hr.
    set (l := (run sample_clock sample_token replay_calls created.2).1) in Hr.
    vm_compute in l. subst l.
    replace created.1 with "tok" by (vm_compute; reflexivity).
    repeat (apply elem_of_cons in Hr as [-> | Hr]; [discriminate|]).
    by apply elem_of_nil in Hr. }
  split; [exact Hfresh|].
  pose proof (code_single_use sample_clock sample_token (Some "client-1")
                (Some "https://app/cb") (Some "mcp:tools") (Some (s256 "abc123"))
                (Some "S256") empty_world replay_calls Hfresh) as (_ & Hlater & _).
  apply (Hlater 1%nat 2%nat (Some "client-1") (Some "https://app/cb") (Some "abc123")
           {| resp_access_token := "xtok"; resp_token_type := "Bearer";
              resp_expires_in := 3600; resp_refresh_token := "xxtok";
              resp_scope := Some "mcp:tools" |}
           (Some "client-1") (Some "https://app/cb") (Some "abc123")).
  - vm_compute. reflexivity.
  - vm_compute. reflexivity.
  - vm_compute. reflexivity.
  - lia.
Defined.

Lemma exchange_deletes_after_validation_witness :
  let auth_code := sample_code (Some "secret") (Some "plain") 600000000 in
  let result := sample_exchange auth_code (Some "client-1") (Some "https://app/cb")
                  (Some "guess") in
  result.1 = None
  ∧ _access_tokens result.2 = _access_tokens (world_with_code auth_code)
  ∧ _refresh_tokens result.2 = _refresh_tokens (world_with_code auth_code).
Proof.
  intros auth_code result.
  assert (result.1 = None) as Hnone by (vm_compute; reflexivity).
  destruct (exchange_deletes_after_validation sample_clock sample_token "c0de"
              (Some "client-1") (Some "https://app/cb") (Some "guess")
              (world_with_code auth_code)) as [_ Hfail].
  destruct (Hfail Hnone) as (Ha & Hr & _).
  split; [exact Hnone|]. split; [exact Ha | exact Hr].
Defined.

(** C3, the claim as stated, fails: the code records the S256 transform of
    the empty verifier as its challenge, the exchange supplies the empty
    verifier with the bound client and redirect URI before expiry, and
    [exchange_code_for_tokens] returns [None] at [if not code_verifier]. *)
Lemma empty_verifier_s256_counterexample :
  ¬ s256_claim_as_stated
      (sample_code (Some "47DEQpj8HBSa-_TImW-5JCeuQeRkm5NMpJWZG3hSuFU")
         (Some "S256") 600000000) "".
Proof.
  intros [_ H].
  destruct H as [t Ht]; [vm_compute; reflexivity|].
  vm_compute in Ht. discriminate Ht.
Qed.

Lemma pkce_s256_witness :
  let auth_code := sample_code (Some (s256 "abc123")) (Some "S256") 600000000 in
  is_Some (sample_exchange auth_code (Some "client-1") (Some "https://app/cb")
             (Some "abc123")).1
  ∧ (sample_exchange auth_code (Some "client-1") (Some "https://app/cb")
       (Some "abc124")).1 = None.
Proof.
  intros auth_code.
  assert (_authorization_codes (world_with_code auth_code) !! "c0de" = Some auth_code)
    as Hl by (vm_compute; reflexivity).
  assert (¬ (ac_expires_at auth_code
             < sample_clock (clock_reads (world_with_code auth_code)))) as He
    by (vm_compute; discriminate).
  split.
  - apply (pkce_s256 sample_clock sample_token "c0de" (Some "client-1")
             (Some "https://app/cb") (Some "abc123") (world_with_code auth_code)
             auth_code Hl eq_refl eq_refl eq_refl He).
    right. exists "abc123". repeat split. discriminate.
  - apply (pkce_s256 sample_clock sample_token "c0de" (Some "client-1")
             (Some "https://app/cb") (Some "abc124") (world_with_code auth_code)
             auth_code Hl eq_refl eq_refl eq_refl He).
    intros [H | (v & Hv & _ & Hch)].
    + vm_compute in H. discriminate H.
    + injection Hv as <-. vm_compute in Hch. discriminate Hch.
Defined.

(** C4, the claim as stated, fails when the challenge recorded is the empty
    string (as [oauth_authorize] records it for [?code_challenge=]): with
    method ["plain"], the bound client and redirect URI and an unexpired
    code, [exchange_code_for_tokens] skips the PKCE block at
    [if auth_code.get("code_challenge")], so it returns tokens for the
    verifier ["x"], which is not the challenge, and returns tokens with no
    verifier at all. *)
Lemma empty_challenge_plain_counterexample :
  ¬ plain_claim_as_stated (sample_code (Some "") (Some "plain") 600000000) (Some "x")
  ∧ (sample_exchange (sample_code (Some "") (Some "plain") 600000000)
       (Some "client-1") (Some "https://app/cb") None).1 ≠ None.
Proof.
  split.
  - intros [H _].
    assert (Some "x" = Some "") as E; [|discriminate E].
    apply H. vm_compute. eauto.
  - vm_compute. discriminate.
Qed.

Lemma pkce_plain_witness :
  let auth_code := sample_code (Some "secret") (Some "plain") 600000000 in
  is_Some (sample_exchange auth_code (Some "client-1") (Some "https://app/cb")
             (Some "secret")).1
  ∧ (sample_exchange auth_code (Some "client-1") (Some "https://app/cb") None).1 = None.
Proof.
  intros auth_code.
  assert (_authorization_codes (world_with_code auth_code) !! "c0de" = Some auth_code)
    as Hl by (vm_compute; reflexivity).
  assert (truthy (ac_code_challenge auth_code) = true) as Hch by reflexivity.
  destruct (pkce_plain sample_clock sample_token "c0de" (world_with_code auth_code)
              auth_code Hl Hch) as [Hiff Hmissing].
  split.
  - apply Hiff; [discriminate | vm_compute; discriminate | reflexivity].
  - apply Hmissing.
Defined.

Lemma expired_code_evicted_witness :
  let auth_code := sample_code None None (-1) in
  let result := sample_exchange auth_code (Some "client-1") (Some "https://app/cb") None in
  result.1 = None
  ∧ _authorization_codes result.2 !! "c0de" = None
  ∧ (exchange_code_for_tokens sample_clock sample_token "c0de" (Some "client-1")
       (Some "https://app/cb") None result.2).1 = None.
Proof.
  intros auth_code result.
  assert (_authorization_codes (world_with_code auth_code) !! "c0de" = Some auth_code)
    as Hl by (vm_compute; reflexivity).
  assert (ac_expires_at auth_code
          < sample_clock (clock_reads (world_with_code auth_code))) as He
    by (vm_compute; reflexivity).
  destruct (expired_code_evicted sample_clock sample_token "c0de" (Some "client-1")
              (Some "https://app/cb") None (world_with_code auth_code) auth_code
              Hl eq_refl eq_refl He) as (Hnone & Habs & Hagain).
  split; [exact Hnone|]. split; [exact Habs|]. apply Hagain.
Defined.

Lemma mismatch_rejected_witness :
  let auth_code := sample_code None None 600000000 in
  sample_exchange auth_code (Some "client-1") (Some "https://app/cb/") None
  = (None, world_with_code auth_code).
Proof.
  intros auth_code.
  apply (mismatch_rejected sample_clock sample_token "c0de" (Some "client-1")
           (Some "https://app/cb/") None (world_with_code auth_code) auth_code).
  - vm_compute. reflexivity.
  - right. discriminate.
Defined.

Lemma empty_challenge_skips_pkce_witness :
  let auth_code := sample_code (Some "") (Some "plain") 600000000 in
  is_Some (sample_exchange auth_code (Some "client-1") (Some "https://app/cb") None).1.
Proof.
  intros auth_code.
  assert (_authorization_codes (world_with_code auth_code) !! "c0de" = Some auth_code)
    as Hl by (vm_compute; reflexivity).
  destruct (empty_challenge_skips_pkce sample_clock sample_token "c0de"
              (world_with_code auth_code) auth_code Hl) as (Hskip & _ & _).
  apply Hskip; [reflexivity | vm_compute; discriminate].
Defined.

Lemma validate_access_token_spec_witness :
  (validate_access_token sample_clock "at-1" (world_with_tokens 10)).1
  = Some (sample_access 10)
  ∧ (validate_access_token sample_clock "at-1" (world_with_tokens (-1))).1 = None
  ∧ (validate_access_token sample_clock "at-1"
       (validate_access_token sample_clock "at-1" (world_with_tokens (-1))).2).1 = None.
Proof.
  split; [|split].
  - apply (validate_access_token_spec sample_clock sample_token "at-1"
             (world_with_tokens 10)).
    + vm_compute. reflexivity.
    + vm_compute. discriminate.
  - eapply (validate_access_token_spec sample_clock sample_token "at-1"
              (world_with_tokens (-1))).
    + vm_compute. reflexivity.
    + vm_compute. reflexivity.
  - eapply (validate_access_token_spec sample_clock sample_token "at-1"
              (world_with_tokens (-1))).
    + vm_compute. reflexivity.
    + vm_compute. reflexivity.
Defined.

Lemma refresh_access_token_spec_witness :
  ∃ t1 t2,
    (refresh_access_token sample_clock sample_token "rt-1" (Some "client-1")
       (world_with_tokens 10)).1 = Some t1
    ∧ (refresh_access_token sample_clock sample_token "rt-1" (Some "client-1")
         (refresh_access_token sample_clock sample_token "rt-1" (Some "client-1")
            (world_with_tokens 10)).2).1 = Some t2
    ∧ resp_refresh_token t1 = "rt-1" ∧ resp_refresh_token t2 = "rt-1"
    ∧ resp_access_token t1 ≠ resp_access_token t2.
Proof.
  destruct (refresh_access_token_spec sample_clock sample_token "rt-1"
              (Some "client-1") (world_with_tokens 10)) as [Hok _].
  destruct (Hok {| rt_client_id := Some "client-1"; rt_scope := Some "mcp:tools";
                   rt_created_at := 0 |})
    as (t1 & t2 & r1 & r2 & E1 & R1 & _ & _ & _ & _ & _ & _ & _ & _ & E2 & R2
        & _ & _ & _ & Hdiff).
  - vm_compute. reflexivity.
  - reflexivity.
  - exists t1, t2. split; [exact E1|]. split; [exact E2|].
    split; [exact R1|]. split; [exact R2|].
    apply Hdiff. vm_compute. discriminate.
Defined.

Lemma check_auth_invalid_bearer_witness :
  (check_auth sample_clock None {| header_Authorization := Some "Bearer bogus" |}
     (world_with_tokens 10)).1 = false
  ∧ (check_auth sample_clock None {| header_Authorization := None |}
       (world_with_tokens 10)).1 = true.
Proof.
  destruct (check_auth_invalid_bearer sample_clock None (world_with_tokens 10))
    as (_ & _ & Hworse).
  apply Hworse.
  - reflexivity.
  - reflexivity.
  - vm_compute. reflexivity.
Defined.

(** ** The further properties at concrete inputs *)

Lemma fresh_code_redeemable_witness :
  let created :=
    create_authorization_code sample_clock sample_token (Some "client-1")
      (Some "https://app/cb") (Some "mcp:tools") None None empty_world in
  is_Some (exchange_code_for_tokens sample_clock sample_token created.1
             (Some "client-1") (Some "https://app/cb") None created.2).1.
Proof.
  intros created.
  destruct (fresh_code_redeemable sample_clock sample_token (Some "client-1")
              (Some "https://app/cb") (Some "mcp:tools") None None None empty_world)
    as [Hiff _].
  - by left.
  - apply Hiff. vm_compute. discriminate.
Defined.

Lemma exchange_tokens_usable_witness :
  let auth_code := sample_code None None 600000000 in
  let result := sample_exchange auth_code (Some "client-1") (Some "https://app/cb") None in
  ∃ t t2,
    result.1 = Some t
    ∧ resp_scope t = ac_scope auth_code
    ∧ (refresh_access_token sample_clock sample_token (resp_refresh_token t)
         (Some "client-1") result.2).1 = Some t2
    ∧ resp_scope t2 = ac_scope auth_code.
Proof.
  intros auth_code result.
  assert (result.1 = Some {| resp_access_token := "tok"; resp_token_type := "Bearer";
                             resp_expires_in := 3600; resp_refresh_token := "xtok";
                             resp_scope := Some "mcp:tools" |}) as E
    by (vm_compute; reflexivity).
  destruct (exchange_tokens_usable sample_clock sample_token "c0de" (Some "client-1")
              (Some "https://app/cb") None (world_with_code auth_code) _ E)
    as (ac & Hl & _ & Hscope & _ & (t2 & Hr & Hs & _) & _).
  assert (ac = auth_code) as ->.
  { assert (_authorization_codes (world_with_code auth_code) !! "c0de" = Some auth_code)
      as Hl' by (vm_compute; reflexivity).
    rewrite Hl' in Hl. by injection Hl. }
  eexists _, t2. split; [exact E|]. split; [exact Hscope|].
  split; [exact Hr | exact Hs].
Defined.

Lemma code_undisturbed_witness :
  let auth_code := sample_code None None 600000000 in
  _authorization_codes
    (run sample_clock sample_token other_calls (world_with_code auth_code)).2 !! "c0de"
  = Some auth_code.
Proof.
  intros auth_code.
  apply (code_undisturbed sample_clock sample_token "c0de" auth_code other_calls).
  - vm_compute. reflexivity.
  - repeat constructor; intros (a & b & c & H); discriminate H.
  - intros r Hr.
    set (l := (run sample_clock sample_token other_calls
                 (world_with_code auth_code)).1) in Hr.
    vm_compute in l. subst l.
    repeat (apply elem_of_cons in Hr as [-> | Hr]; [discriminate|]).
    by apply elem_of_nil in Hr.
Defined.

Lemma refresh_token_persists_witness :
  ∃ t,
    (refresh_access_token sample_clock sample_token "rt-1" (Some "client-1")
       (run sample_clock sample_token other_calls (world_with_tokens 10)).2).1 = Some t
    ∧ resp_scope t = Some "mcp:tools".
Proof.
  destruct (refresh_token_persists sample_clock sample_token "rt-1"
              {| rt_client_id := Some "client-1"; rt_scope := Some "mcp:tools";
                 rt_created_at := 0 |} other_calls (world_with_tokens 10))
    as (_ & t & Ht & Hs & _).
  - vm_compute. reflexivity.
  - set (l := (run sample_clock sample_token other_calls (world_with_tokens 10)).1).
    vm_compute in l. subst l. unfold other_calls.
    repeat (constructor; [intros (a & b & c & d & t & H1 & H2 & H3);
                          first [discriminate H1 | discriminate H2]|]).
    constructor.
  - exists t. split; [exact Ht | exact Hs].
Defined.

Lemma bindings_preserved_witness :
  bound_within sample_binding
    (run sample_clock sample_token other_calls (world_with_tokens 10)).2.
Proof.
  apply (bindings_preserved sample_clock sample_token sample_binding other_calls
           (world_with_tokens 10)).
  - unfold bound_within, world_with_tokens.
    cbn [_authorization_codes _access_tokens _refresh_tokens].
    split; [apply map_Forall_empty|].
    split; apply map_Forall_singleton; by split.
  - unfold other_calls. repeat (constructor; [by cbn|]). constructor.
Defined.

Lemma static_token_gate_witness :
  (check_auth sample_clock (Some "s3cret")
     {| header_Authorization := Some ("Bearer " +:+ "s3cret") |} empty_world).1 = true
  ∧ transport_gate sample_clock (Some "s3cret")
      {| header_Authorization := Some "bearer s3cret" |} empty_world
    = (Some ("Unauthorized", 401), empty_world).
Proof.
  destruct (static_token_gate sample_clock "s3cret" empty_world) as [Hin Hout].
  - discriminate.
  - split; [exact Hin|]. apply Hout. reflexivity.
Defined.

Lemma issued_token_opens_gate_witness :
  let auth_code := sample_code None None 600000000 in
  let result := sample_exchange auth_code (Some "client-1") (Some "https://app/cb") None in
  (check_auth sample_clock (Some "s3cret")
     {| header_Authorization := Some ("Bearer " +:+ "tok") |} result.2).1 = true.
Proof.
  intros auth_code result.
  apply (issued_token_opens_gate sample_clock sample_token "c0de" (Some "client-1")
           (Some "https://app/cb") None (world_with_code auth_code)
           {| resp_access_token := "tok"; resp_token_type := "Bearer";
              resp_expires_in := 3600; resp_refresh_token := "xtok";
              resp_scope := Some "mcp:tools" |} (Some "s3cret")).
  - vm_compute. reflexivity.
  - vm_compute. discriminate.
Defined.

Lemma expired_token_refused_witness :
  (transport_gate sample_clock None
     {| header_Authorization := Some ("Bearer " +:+ "at-1") |}
     (world_with_tokens (-1))).1
  = Some ("Unauthorized", 401).
Proof.
  apply (expired_token_refused sample_clock None "at-1" (sample_access (-1))
           (world_with_tokens (-1))).
  - vm_compute. reflexivity.
  - vm_compute. reflexivity.
  - discriminate.
Defined.

Lemma authorize_then_redeem_witness :
  (oauth_authorize sample_clock sample_token {[ "response_type" := "token" ]}
     empty_world).1
  = JSONResponse "unsupported_response_type" 400
  ∧ (oauth_authorize sample_clock sample_token
       {[ "response_type" := "code"; "redirect_uri" := "https://app/cb";
          "state" := "xyz" ]} empty_world).1
    = RedirectResponse "https://app/cb?code=tok&state=xyz" 302.
Proof.
  split.
  - apply (authorize_then_redeem sample_clock sample_token
             {[ "response_type" := "token" ]} empty_world).
    vm_compute. discriminate.
  - destruct (authorize_then_redeem sample_clock sample_token
                {[ "response_type" := "code"; "redirect_uri" := "https://app/cb";
                   "state" := "xyz" ]} empty_world) as [_ Hcode].
    destruct Hcode as [Hurl _]; [vm_compute; reflexivity|].
    rewrite Hurl. vm_compute. reflexivity.
Defined.

Lemma token_endpoint_errors_witness :
  oauth_token sample_clock sample_token sample_b64decode
    (sample_token_request (Some "Basic !!!")) empty_world
  = (ErrorJSON "server_error" 500, empty_world)
  ∧ oauth_token sample_clock sample_token sample_b64decode
      {| body := {[ "grant_type" := "password" ]}; header_authorization := None |}
      empty_world
    = (ErrorJSON "unsupported_grant_type" 400, empty_world).
Proof.
  split.
  - apply (token_endpoint_errors sample_clock sample_token sample_b64decode
             (sample_token_request (Some "Basic !!!")) empty_world).
    + reflexivity.
    + left. vm_compute. reflexivity.
  - apply (token_endpoint_errors sample_clock sample_token sample_b64decode
             {| body := {[ "grant_type" := "password" ]};
                header_authorization := None |} empty_world).
    + vm_compute. eauto.
    + vm_compute. discriminate.
    + vm_compute. discriminate.
Defined.

Lemma token_endpoint_replay_witness :
  let w := world_with_code (sample_code None None 600000000) in
  let first := oauth_token sample_clock sample_token sample_b64decode
                 (sample_token_request None) w in
  oauth_token sample_clock sample_token sample_b64decode (sample_token_request None)
    first.2
  = (ErrorJSON "invalid_grant" 400, first.2).
Proof.
  intros w first.
  apply (token_endpoint_replay sample_clock sample_token sample_b64decode
           (sample_token_request None) w
           {| resp_access_token := "tok"; resp_token_type := "Bearer";
              resp_expires_in := 3600; resp_refresh_token := "xtok";
              resp_scope := Some "mcp:tools" |}).
  - vm_compute. reflexivity.
  - vm_compute. reflexivity.
Defined.

Lemma basic_header_overrides_body_witness :
  let w := world_with_code (sample_code None None 600000000) in
  oauth_token sample_clock sample_token sample_b64decode
    {| body := {[ "grant_type" := "authorization_code"; "code" := "c0de";
                  "client_id" := "client-2"; "redirect_uri" := "https://app/cb" ]};
       header_authorization := Some ("Basic " +:+ sample_basic) |} w
  = oauth_token sample_clock sample_token sample_b64decode
      {| body := <["client_id" := "client-1"]>
                   {[ "grant_type" := "authorization_code"; "code" := "c0de";
                      "client_id" := "client-2";
                      "redirect_uri" := "https://app/cb" ]};
         header_authorization := None |} w.
Proof.
  intros w.
  apply (basic_header_overrides_body sample_clock sample_token sample_b64decode
           _ ("Basic " +:+ sample_basic) "client-1" "s3cret" w).
  - vm_compute. reflexivity.
  - vm_compute. reflexivity.
  - vm_compute. reflexivity.
Defined.


Lemma failed_pkce_keeps_code_witness :
  let auth_code := sample_code (Some "secret") (Some "plain") 600000000 in
  let w' := (sample_exchange auth_code (Some "client-1") (Some "https://app/cb")
               (Some "guess")).2 in
  is_Some (exchange_code_for_tokens sample_clock sample_token "c0de" (Some "client-1")
             (Some "https://app/cb") (Some "secret") w').1.
Proof.
  intros auth_code w'.
  apply (failed_pkce_keeps_code sample_clock sample_token "c0de" (Some "client-1")
           (Some "https://app/cb") (Some "guess") (Some "secret")
           (world_with_code auth_code) auth_code).
  - vm_compute. reflexivity.
  - reflexivity.
  - reflexivity.
  - vm_compute. discriminate.
  - intros [H | (v & Hv & _ & Hch)].
    + vm_compute in H. discriminate H.
    + injection Hv as <-. vm_compute in Hch. discriminate Hch.
  - right. exists "secret". repeat split. discriminate.
  - vm_compute. discriminate.
Defined.

Lemma token_endpoint_ignores_secret_witness :
  let w := world_with_code (sample_code None None 600000000) in
  oauth_token sample_clock sample_token sample_b64decode
    {| body := <["client_secret" := "wrong"]> (body (sample_token_request None));
       header_authorization := None |} w
  = oauth_token sample_clock sample_token sample_b64decode
      {| body := delete "client_secret" (body (sample_token_request None));
         header_authorization := None |} w.
Proof.
  intros w.
  apply (token_endpoint_ignores_secret sample_clock sample_token sample_b64decode
           (body (sample_token_request None)) None "wrong" w).
Defined.

Lemma register_client_round_trip_witness :
  let result :=
    register_client sample_clock sample_token sample_uuid sample_timestamp
      {[ "client_name" := JStr "Claude"; "grant_types" := JNull;
         "client_id" := JStr "chosen" ]} empty_server in
  (get_client (cd_client_id result.1) result.2).1 = Some result.1
  ∧ cd_client_id result.1 = "uuid-tok"
  ∧ cd_grant_types result.1 = JNull
  ∧ cd_client_name result.1 = JStr "Claude"
  ∧ cd_redirect_uris result.1 = JArr []
  ∧ cd_scope result.1 = JStr "mcp:tools mcp:resources".
Proof.
  intros result.
  destruct (register_client_round_trip sample_clock sample_token sample_uuid
              sample_timestamp
              {[ "client_name" := JStr "Claude"; "grant_types" := JNull;
                 "client_id" := JStr "chosen" ]} empty_server)
    as (Hget & Hid & _ & _ & _ & _ & _ & Hgrant & _ & Hname & _
        & Hredirect & _ & _ & _ & _ & Hscope & _).
  split; [exact Hget|]. split; [exact Hid|]. split; [|split; [|split]].
  - apply Hgrant. vm_compute. reflexivity.
  - apply Hname. vm_compute. reflexivity.
  - apply Hredirect. vm_compute. reflexivity.
  - apply Hscope. vm_compute. reflexivity.
Defined.

